(** * Smart-SoF front end: document submission and results management

    A shallow embedding of the two React components that carry the
    application's state,

      - [src/Frontend/src/components/FileUpload.jsx]   (module [FileUpload])
      - [src/Frontend/src/components/ResultsTable.jsx] (module [ResultsTable])

    Each [useState] cell becomes a field of a state record, each handler
    becomes a function on that record, and what a handler does to the
    outside world (a [fetch], a [navigate], an [alert], a download) is
    returned next to the new state.  [console.log] / [console.error] calls
    are not modelled.  Values have no identity here: a copied object is the
    same value as its original. *)

From Stdlib Require Import Ascii DecimalString.
From stdpp Require Import base decidable option list strings numbers.

Open Scope string_scope.
Open Scope list_scope.

(** ** JavaScript values and built-ins used by the components *)

Module JS.

(** The values the components meet as record fields and as identifiers:
    [undefined], [null], booleans, numbers and strings.  Numbers are the
    integer-valued ones; the components only copy and compare them. *)
Inductive Value :=
  | VUndefined
  | VNull
  | VBool (b : bool)
  | VNum (n : Z)
  | VStr (s : string).

#[global] Instance Value_eq_dec : EqDecision Value.
Proof. solve_decision. Defined.

(** [a === b] on these values. *)
Definition strict_eq (a b : Value) : bool := bool_decide (a = b).

(** [a !== b], as the predicate of a filter. *)
Definition strict_neq (a b : Value) : Prop := strict_eq a b = false.

#[global] Instance strict_neq_dec a b : Decision (strict_neq a b).
Proof. unfold strict_neq. apply _. Defined.

(** ToBoolean. *)
Definition truthy (v : Value) : bool :=
  match v with
  | VUndefined | VNull => false
  | VBool b => b
  | VNum n => negb (n =? 0)%Z
  | VStr s => negb (String.eqb s "")
  end.

Definition string_of_N (n : N) : string := NilZero.string_of_uint (N.to_uint n).

Definition string_of_Z (n : Z) : string :=
  match n with
  | Zneg p => "-" +:+ string_of_N (Npos p)
  | _ => string_of_N (Z.to_N n)
  end.

(** ToString, as a template literal applies it. *)
Definition toString (v : Value) : string :=
  match v with
  | VUndefined => "undefined"
  | VNull => "null"
  | VBool true => "true"
  | VBool false => "false"
  | VNum n => string_of_Z n
  | VStr s => s
  end.

(** [s.split(c)] for a one-character separator: never the empty array. *)
Fixpoint split (c : ascii) (s : string) : list string :=
  match s with
  | EmptyString => [""]
  | String a s' =>
      if Ascii.eqb a c then "" :: split c s'
      else match split c s' with
           | seg :: segs => String a seg :: segs
           | [] => [String a ""]
           end
  end.

(** [arr.includes(x)] on an array of strings. *)
Definition includes (arr : list string) (x : string) : bool :=
  existsb (String.eqb x) arr.

(** [arr.join(sep)]. *)
Definition join (sep : string) (arr : list string) : string :=
  String.concat sep arr.

(** [String.prototype.toLowerCase] restricted to the ASCII letters; every
    other character is kept. *)
Definition lower_ascii (a : ascii) : ascii :=
  let n := N_of_ascii a in
  if ((65 <=? n) && (n <=? 90))%N then ascii_of_N (n + 32) else a.

Fixpoint toLowerCase_ascii (s : string) : string :=
  match s with
  | EmptyString => EmptyString
  | String a s' => String (lower_ascii a) (toLowerCase_ascii s')
  end.

(** *** Plain objects as ordered property lists

    A row is a JSON object.  It is kept as the list of its own properties in
    the order [Object.keys] reports them: array-index keys first, ascending,
    then the other keys in insertion order. *)
Definition Row := list (string * Value).

Definition keys (r : Row) : list string := r.*1.

(** [r[k]], [undefined] when the property is absent. *)
Fixpoint get (k : string) (r : Row) : Value :=
  match r with
  | [] => VUndefined
  | (k', v) :: r' => if String.eqb k' k then v else get k r'
  end.

Fixpoint has (k : string) (r : Row) : bool :=
  match r with
  | [] => false
  | (k', _) :: r' => String.eqb k' k || has k r'
  end.

Definition digit (a : ascii) : option N :=
  let n := N_of_ascii a in
  if ((48 <=? n) && (n <=? 57))%N then Some (n - 48)%N else None.

Fixpoint parseDigits (acc : N) (s : string) : option N :=
  match s with
  | EmptyString => Some acc
  | String a s' =>
      match digit a with
      | Some d => parseDigits (10 * acc + d)%N s'
      | None => None
      end
  end.

(** A key is an array index when it is the canonical decimal form of an
    integer below 2^32 - 1. *)
Definition arrayIndex (k : string) : option N :=
  match k with
  | EmptyString => None
  | String "0" EmptyString => Some 0%N
  | String "0" _ => None
  | _ => match parseDigits 0 k with
         | Some n => if (n <? 2 ^ 32 - 1)%N then Some n else None
         | None => None
         end
  end.

Fixpoint replace (k : string) (v : Value) (r : Row) : Row :=
  match r with
  | [] => []
  | (k', v') :: r' =>
      if String.eqb k' k then (k', v) :: r' else (k', v') :: replace k v r'
  end.

Fixpoint insertIndexed (n : N) (k : string) (v : Value) (r : Row) : Row :=
  match r with
  | [] => [(k, v)]
  | (k', v') :: r' =>
      match arrayIndex k' with
      | Some m => if (m <? n)%N then (k', v') :: insertIndexed n k v r'
                  else (k, v) :: r
      | None => (k, v) :: r
      end
  end.

(** Defining property [k] with value [v]: an existing property keeps its
    place, a new one goes where the property order puts it. *)
Definition set (k : string) (v : Value) (r : Row) : Row :=
  if has k r then replace k v r
  else match arrayIndex k with
       | Some n => insertIndexed n k v r
       | None => r ++ [(k, v)]
       end.

(** Truthiness of a nullable object reference. *)
Definition isSome {A} (o : option A) : bool :=
  match o with
  | Some _ => true
  | None => false
  end.

(** [{ ...r }]: a fresh object with the same properties in the same order. *)
Definition spread (r : Row) : Row := r.

End JS.

Import JS.

(** ** FileUpload.jsx *)

Module FileUpload.

(** A [File] picked in an input: its name and its bytes. *)
Record File := mkFile { name : string; bytes : string }.

(** The five [useState] cells of the component. *)
Record State := mkState {
  sofFile : option File;
  cpFile : option File;
  additionalFile : option File;
  loading : bool;
  error : string
}.

Definition initial : State :=
  {| sofFile := None; cpFile := None; additionalFile := None;
     loading := false; error := "" |}.

Definition setSofFile (f : option File) (st : State) : State :=
  {| sofFile := f; cpFile := cpFile st; additionalFile := additionalFile st;
     loading := loading st; error := error st |}.

Definition setCpFile (f : option File) (st : State) : State :=
  {| sofFile := sofFile st; cpFile := f; additionalFile := additionalFile st;
     loading := loading st; error := error st |}.

Definition setAdditionalFile (f : option File) (st : State) : State :=
  {| sofFile := sofFile st; cpFile := cpFile st; additionalFile := f;
     loading := loading st; error := error st |}.

Definition setLoading (b : bool) (st : State) : State :=
  {| sofFile := sofFile st; cpFile := cpFile st;
     additionalFile := additionalFile st; loading := b; error := error st |}.

Definition setError (e : string) (st : State) : State :=
  {| sofFile := sofFile st; cpFile := cpFile st;
     additionalFile := additionalFile st; loading := loading st; error := e |}.

(** The three upload cards of the rendered page: which cell each one reads,
    which setter and which extension list its [onChange] passes on. *)
Inductive Slot := Sof | Cp | Additional.

Definition slotFile (slot : Slot) (st : State) : option File :=
  match slot with
  | Sof => sofFile st
  | Cp => cpFile st
  | Additional => additionalFile st
  end.

Definition setter (slot : Slot) : option File -> State -> State :=
  match slot with
  | Sof => setSofFile
  | Cp => setCpFile
  | Additional => setAdditionalFile
  end.

Definition allowedTypes (slot : Slot) : list string :=
  match slot with
  | Sof => ["pdf"; "docx"]
  | Cp => ["pdf"; "docx"]
  | Additional => ["docx"; "txt"; "pdf"]
  end.

(** The multipart body and the request [fetch] is given. *)
Definition FormData := list (string * File).

Inductive Request :=
  | Fetch (url method : string) (body : FormData).

Definition requestBody (r : Request) : FormData :=
  match r with Fetch _ _ body => body end.

(** What comes back.  [json] is what [response.json()] settles to: [inl m]
    when it rejects with an error of message [m], [inr b] when the body
    parses.  A parsed body is [null], or any other value, of which only the
    properties [detail] and [processed_data] are read ([VUndefined] and
    [None] when absent). *)
Inductive Body :=
  | BodyNull
  | BodyObject (detail : Value) (processed_data : option (list Row)).

Record Response := mkResponse {
  ok : bool;
  status : N;
  statusText : string;
  json : string + Body
}.

Inductive FetchResult :=
  | FetchRejected (message : string)
  | FetchResolved (response : Response).

(** [navigate(path, { state: { processedData } })]. *)
Inductive Navigation :=
  | Navigate (path : string) (processedData : option (list Row)).

(** The body of a [try] block: it throws an error with a message, or it
    runs to its end with a value. *)
Inductive Try (A : Type) :=
  | Throw (message : string)
  | Return (a : A).
Arguments Throw {A} message.
Arguments Return {A} a.

Definition bind {A B} (m : Try A) (k : A -> Try B) : Try B :=
  match m with
  | Throw message => Throw message
  | Return a => k a
  end.

Notation "'let!' x ':=' m 'in' k" := (bind m (fun x => k))
  (at level 10, x name, m at level 100, k at level 200).

Section Handlers.

(** [String.prototype.toLowerCase]. *)
Variable toLowerCase : string -> string.

(** The message of the [TypeError] the engine throws when a property of
    [null] is read, by property name. *)
Variable nullPropertyError : string -> string.

Definition handleFileChange (setter : option File -> State -> State)
    (allowedTypes : list string) (file : option File) (st : State) : State :=
  let st := setError "" st in
  match file with
  | Some f =>
      let fileNameParts := split "." (name f) in
      match fileNameParts !! (length fileNameParts - 1) with
      | Some part =>
          let fileExtension := toLowerCase part in
          if negb (includes allowedTypes fileExtension) then
            let st :=
              setError ("Invalid file type for this slot. Allowed: "
                        +:+ join ", " allowedTypes) st in
            setter None st
          else setter (Some f) st
      | None => st (* [undefined.toLowerCase()] would throw; [split] is never empty *)
      end
  | None => setter None st
  end.

(** [handleSubmit] up to its [await fetch(...)]: the new state and the
    request that is now in flight, if one was sent. *)
Definition handleSubmit (st : State) : State * option Request :=
  match sofFile st with
  | None =>
      (setError "Please upload the Statement of Facts document (SOF)." st, None)
  | Some sof =>
      let st' := setError "" (setLoading true st) in
      let formData := [("sof_file", sof)] in
      let formData :=
        match cpFile st with
        | Some cp => formData ++ [("cp_file", cp)]
        | None => formData
        end in
      let formData :=
        match additionalFile st with
        | Some additional => formData ++ [("additional_file", additional)]
        | None => formData
        end in
      (st', Some (Fetch "http://localhost:8000/process-documents/" "POST" formData))
  end.

Definition await_fetch (r : FetchResult) : Try Response :=
  match r with
  | FetchRejected message => Throw message
  | FetchResolved response => Return response
  end.

Definition await_json (response : Response) : Try Body :=
  match json response with
  | inl message => Throw message
  | inr body => Return body
  end.

Definition read_detail (b : Body) : Try Value :=
  match b with
  | BodyNull => Throw (nullPropertyError "detail")
  | BodyObject detail _ => Return detail
  end.

Definition read_processed_data (b : Body) : Try (option (list Row)) :=
  match b with
  | BodyNull => Throw (nullPropertyError "processed_data")
  | BodyObject _ processed_data => Return processed_data
  end.

(** The [try] block of [handleSubmit], from the settled [fetch] on. *)
Definition tryBlock (r : FetchResult) : Try Navigation :=
  let! response := await_fetch r in
  if negb (ok response) then
    let! errorData := await_json response in
    let! detail := read_detail errorData in
    Throw ("Server error: " +:+ string_of_N (status response) +:+ " - "
           +:+ (if truthy detail then toString detail else statusText response))
  else
    let! result := await_json response in
    let! processed_data := read_processed_data result in
    Return (Navigate "/results" processed_data).

(** The rest of [handleSubmit]: [try], [catch] and [finally]. *)
Definition handleSubmit_settle (r : FetchResult) (st : State)
    : State * option Navigation :=
  match tryBlock r with
  | Return nav => (setLoading false st, Some nav)
  | Throw message =>
      let st := setError ("Failed to process documents: " +:+ message) st in
      (setLoading false st, None)
  end.

(** *** The mounted component

    The state cells, the requests sent and not yet settled, and the
    navigations asked for so far (most recent first). *)
Record Component := mkComponent {
  state : State;
  pending : list Request;
  navigated : list Navigation
}.

Definition mounted : Component :=
  {| state := initial; pending := []; navigated := [] |}.

(** What can happen to it: an input's [onChange], a click on a card's
    Remove button, a click on Submit Documents, the pending [fetch]
    settling. *)
Inductive Event :=
  | InputChange (slot : Slot) (file : option File)
  | ClickRemove (slot : Slot)
  | ClickSubmit
  | Settle (r : FetchResult).

(** [disabled={loading || !sofFile}] on the submit button. *)
Definition submitDisabled (st : State) : bool :=
  loading st || negb (isSome (sofFile st)).

Definition step (c : Component) (e : Event) : Component :=
  match e with
  | InputChange slot file =>
      {| state := handleFileChange (setter slot) (allowedTypes slot) file (state c);
         pending := pending c; navigated := navigated c |}
  | ClickRemove slot =>
      (* the button is rendered only while the slot holds a file *)
      match slotFile slot (state c) with
      | Some _ => {| state := setter slot None (state c);
                     pending := pending c; navigated := navigated c |}
      | None => c
      end
  | ClickSubmit =>
      (* a disabled button fires no click *)
      if submitDisabled (state c) then c
      else
        let '(st, request) := handleSubmit (state c) in
        {| state := st;
           pending := pending c ++ option_list request;
           navigated := navigated c |}
  | Settle r =>
      match pending c with
      | [] => c
      | _ :: rest =>
          let '(st, nav) := handleSubmit_settle r (state c) in
          {| state := st; pending := rest;
             navigated := option_list nav ++ navigated c |}
      end
  end.

Definition run (c : Component) (events : list Event) : Component :=
  foldl step c events.

End Handlers.

End FileUpload.

(** ** ResultsTable.jsx *)

Module ResultsTable.

(** The [useState] cells of the component. *)
Record State := mkState {
  tableData : list Row;
  editDialogOpen : bool;
  deleteDialogOpen : bool;
  currentRowToEdit : option Row;
  currentEditedRow : Row;
  rowToDeleteId : Value
}.

Definition setTableData (f : list Row -> list Row) (st : State) : State :=
  {| tableData := f (tableData st);
     editDialogOpen := editDialogOpen st;
     deleteDialogOpen := deleteDialogOpen st;
     currentRowToEdit := currentRowToEdit st;
     currentEditedRow := currentEditedRow st;
     rowToDeleteId := rowToDeleteId st |}.

Definition setEditDialogOpen (b : bool) (st : State) : State :=
  {| tableData := tableData st;
     editDialogOpen := b;
     deleteDialogOpen := deleteDialogOpen st;
     currentRowToEdit := currentRowToEdit st;
     currentEditedRow := currentEditedRow st;
     rowToDeleteId := rowToDeleteId st |}.

Definition setDeleteDialogOpen (b : bool) (st : State) : State :=
  {| tableData := tableData st;
     editDialogOpen := editDialogOpen st;
     deleteDialogOpen := b;
     currentRowToEdit := currentRowToEdit st;
     currentEditedRow := currentEditedRow st;
     rowToDeleteId := rowToDeleteId st |}.

Definition setCurrentRowToEdit (r : option Row) (st : State) : State :=
  {| tableData := tableData st;
     editDialogOpen := editDialogOpen st;
     deleteDialogOpen := deleteDialogOpen st;
     currentRowToEdit := r;
     currentEditedRow := currentEditedRow st;
     rowToDeleteId := rowToDeleteId st |}.

Definition setCurrentEditedRow (f : Row -> Row) (st : State) : State :=
  {| tableData := tableData st;
     editDialogOpen := editDialogOpen st;
     deleteDialogOpen := deleteDialogOpen st;
     currentRowToEdit := currentRowToEdit st;
     currentEditedRow := f (currentEditedRow st);
     rowToDeleteId := rowToDeleteId st |}.

Definition setRowToDeleteId (id : Value) (st : State) : State :=
  {| tableData := tableData st;
     editDialogOpen := editDialogOpen st;
     deleteDialogOpen := deleteDialogOpen st;
     currentRowToEdit := currentRowToEdit st;
     currentEditedRow := currentEditedRow st;
     rowToDeleteId := id |}.

(** [location.state]: [None] when the route was entered without a state
    object, otherwise the [processedData] it carries, if any. *)
Definition LocationState := option (option (list Row)).

(** [location.state?.processedData || []]. *)
Definition initialData (ls : LocationState) : list Row :=
  match ls with
  | Some (Some processedData) => processedData
  | _ => []
  end.

Definition initial (ls : LocationState) : State :=
  {| tableData := initialData ls;
     editDialogOpen := false;
     deleteDialogOpen := false;
     currentRowToEdit := None;
     currentEditedRow := [];
     rowToDeleteId := VNull |}.

(** The [useEffect] on [initialData]. *)
Definition effect (ls : LocationState) (st : State) : State :=
  if (0 <? length (initialData ls))%nat then
    setTableData (fun _ => initialData ls) st
  else if (0 <? length (tableData st))%nat then
    setTableData (fun _ => []) st
  else st.

(** The component after its first render and effect. *)
Definition mount (ls : LocationState) : State := effect ls (initial ls).

Definition handleEditClick (row : Row) (st : State) : State :=
  let st := setCurrentRowToEdit (Some row) st in
  let st := setCurrentEditedRow (fun _ => spread row) st in
  setEditDialogOpen true st.

Definition handleDeleteClick (rowId : Value) (st : State) : State :=
  let st := setRowToDeleteId rowId st in
  setDeleteDialogOpen true st.

(** [event.target] carries the text field's [name] and its new [value]. *)
Definition handleFieldChange (name value : string) (st : State) : State :=
  setCurrentEditedRow (fun prev => set name (VStr value) (spread prev)) st.

Definition handleSaveEdit (st : State) : State :=
  let st' :=
    setTableData (fun prevData =>
      (fun row =>
         if strict_eq (get "id" row) (get "id" (currentEditedRow st))
         then spread (currentEditedRow st) else row) <$> prevData) st in
  let st' := setEditDialogOpen false st' in
  let st' := setCurrentRowToEdit None st' in
  setCurrentEditedRow (fun _ => []) st'.

Definition handleConfirmDelete (st : State) : State :=
  let st' :=
    setTableData (fun prevData =>
      filter (fun row => strict_neq (get "id" row) (rowToDeleteId st)) prevData)
      st in
  let st' := setDeleteDialogOpen false st' in
  setRowToDeleteId VNull st'.

(** [confirmDeleteAll] is what [window.confirm] answers. *)
Definition handleTableWiseDelete (confirmDeleteAll : bool) (st : State) : State :=
  if negb confirmDeleteAll then st
  else setTableData (fun _ => []) st.

(** The [columns] constant computed in the body of every render. *)
Definition columns (st : State) : list string :=
  match tableData st with
  | row :: _ => filter (fun key => key <> "id") (keys row)
  | [] => []
  end.

(** What a download handler does to the page. *)
Inductive Effect :=
  | Alert (message : string)
  | Download (filename type content : string).

Section Downloads.

(** [Papa.unparse] and [JSON.stringify(_, null, 2)] on the table. *)
Variable unparse : list Row -> string.
Variable stringify : list Row -> string.

Definition handleDownloadCSV (st : State) : State * list Effect :=
  if (length (tableData st) =? 0)%nat then (st, [Alert "No data to download."])
  else
    let csv := unparse (tableData st) in
    (st, [Download "results.csv" "text/csv;charset=utf-8;" csv]).

Definition handleDownloadJSON (st : State) : State * list Effect :=
  if (length (tableData st) =? 0)%nat then (st, [Alert "No data to download."])
  else
    let json := stringify (tableData st) in
    (st, [Download "results.json" "application/json;charset=utf-8;" json]).

End Downloads.

End ResultsTable.

(** ** What the specification calls an extension

    The final dot-delimited segment of a file name, said without [split]:
    [seg] has no dot in it, and the name is [seg] itself or ends in a dot
    followed by [seg]. *)

Fixpoint hasDot (s : string) : bool :=
  match s with
  | EmptyString => false
  | String a s' => Ascii.eqb a "." || hasDot s'
  end.

Definition finalSegment (fileName seg : string) : Prop :=
  hasDot seg = false /\
  (fileName = seg \/ exists stem, fileName = stem +:+ "." +:+ seg).

(** [parts[parts.length - 1]]. *)
Definition lastPart (parts : list string) : option string :=
  parts !! (length parts - 1).

(** The upload component is consistent when its [loading] cell tells
    whether a request is in flight, and at most one is. *)
Definition consistent (c : FileUpload.Component) : Prop :=
  length (FileUpload.pending c) =
  if FileUpload.loading (FileUpload.state c) then 1%nat else 0%nat.

(** ** Sample inputs

    The message V8 gives the [TypeError] for a property read on [null], two
    files, and a delivered table of two rows. *)
Definition nullPropertyError_v8 (property : string) : string :=
  "Cannot read properties of null (reading '" +:+ property +:+ "')".

Definition statement_docx : FileUpload.File :=
  FileUpload.mkFile "Statement.DOCX" "PK".

Definition scan_png : FileUpload.File := FileUpload.mkFile "scan.png" "PNG".

Definition row_alpha : Row :=
  [("id", VNum 1); ("vessel", VStr "Alpha"); ("port", VStr "Kandla")].

Definition row_beta : Row :=
  [("id", VNum 2); ("vessel", VStr "Beta"); ("port", VStr "Mundra")].

Definition delivered : ResultsTable.State :=
  ResultsTable.mount (Some (Some [row_alpha; row_beta])).

(** ** ResultsTable.jsx: the dialogs' Cancel buttons, the header labels and
    the way in *)

Module ResultsTableView.

Import ResultsTable.



(** The user types into the dialog's fields, one change event after the
    other. *)
Definition typeAll (changes : list (string * string)) (st : State) : State :=
  foldl (fun st change => handleFieldChange change.1 change.2 st) st changes.

(** The edit buffer after those changes, started from [r]. *)
Definition typed (changes : list (string * string)) (r : Row) : Row :=
  foldl (fun buffer change => set change.1 (VStr change.2) (spread buffer))
        r changes.

(** [location.state] as [useLocation] reports it after
    [navigate(path, { state: { processedData } })]. *)
Definition useLocation (nav : FileUpload.Navigation) : LocationState :=
  match nav with
  | FileUpload.Navigate _ processedData => Some processedData
  end.

(** [value={currentEditedRow[key] || ''}] of the dialog's text field for
    [key]. *)
Definition fieldValue (st : State) (key : string) : Value :=
  let v := get key (currentEditedRow st) in
  if truthy v then v else VStr "".

(** [[A-Z]]. *)
Definition isCapital (a : ascii) : bool :=
  let n := N_of_ascii a in ((65 <=? n) && (n <=? 90))%N.

Fixpoint hasCapital (s : string) : bool :=
  match s with
  | EmptyString => false
  | String a s' => isCapital a || hasCapital s'
  end.



Section Labels.

(** [String.prototype.toUpperCase], applied to a one-character string. *)
Variable toUpperCase : string -> string.



End Labels.


End ResultsTableView.

(** ** App.js, with the Login and Navbar components it renders *)

Module App.

(** What [JSON.parse] can give back, as far as the components look at it:
    a scalar or an object. *)
Inductive Parsed :=
  | Scalar (v : Value)
  | Object (r : Row).

Definition truthyParsed (p : Parsed) : bool :=
  match p with
  | Scalar v => truthy v
  | Object _ => true
  end.

(** Which [<Route>] matches the location, and which element is shown. *)
Inductive Route := Root | Upload | Results | Unmatched.

Inductive Element :=
  | LoginPage
  | FileUploadPage
  | ResultsTablePage
  | PageNotFound.

(** The [user] cell, the ['mockUser'] item of [localStorage] and the
    router's location. *)
Record State := mkState {
  user : Parsed;
  mockUser : option string;
  location : Route
}.

Definition setUser (u : Parsed) (st : State) : State :=
  {| user := u; mockUser := mockUser st; location := location st |}.

Definition setItem (value : string) (st : State) : State :=
  {| user := user st; mockUser := Some value; location := location st |}.

Definition removeItem (st : State) : State :=
  {| user := user st; mockUser := None; location := location st |}.

Definition navigate (to : Route) (st : State) : State :=
  {| user := user st; mockUser := mockUser st; location := to |}.

(** The first render of a freshly loaded page: [useState(null)], with the
    storage and the location the browser kept. *)
Definition load (stored : option string) (at_ : Route) : State :=
  {| user := Scalar VNull; mockUser := stored; location := at_ |}.

(** [handleMockLogin] of the Login component: the object it hands to
    [onLoginSuccess]. *)
Definition handleMockLogin (type : string) : Row :=
  [("email",
    VStr (if String.eqb type "google" then "user@gmail.com"
          else "user@apple.com"));
   ("profilePic",
    VStr (if String.eqb type "google"
          then "https://via.placeholder.com/40/FF5733/FFFFFF?text=G"
          else "https://via.placeholder.com/40/000000/FFFFFF?text=A"))].

Section WithJSON.

(** [JSON.stringify] on an object and [JSON.parse]. *)
Variable stringify : Row -> string.
Variable parse : string -> FileUpload.Try Parsed.

(** The effect run once after the first render; it throws when the stored
    text does not parse. *)
Definition restore (st : State) : FileUpload.Try State :=
  match mockUser st with
  | Some storedUser =>
      if negb (String.eqb storedUser "") then
        FileUpload.bind (parse storedUser)
          (fun parsed => FileUpload.Return (setUser parsed st))
      else FileUpload.Return st
  | None => FileUpload.Return st
  end.

Definition handleLoginSuccess (userData : Row) (st : State) : State :=
  let st := setUser (Object userData) st in
  let st := setItem (stringify userData) st in
  navigate Upload st.

Definition handleLogout (st : State) : State :=
  let st := setUser (Scalar VNull) st in
  let st := removeItem st in
  navigate Root st.

End WithJSON.

(** The element the matching route renders. *)
Definition element (st : State) : Element :=
  match location st with
  | Root => LoginPage
  | Upload => if truthyParsed (user st) then FileUploadPage else LoginPage
  | Results => if truthyParsed (user st) then ResultsTablePage else LoginPage
  | Unmatched => PageNotFound
  end.

(** *** Navbar.jsx: the account menu *)

(** The [anchorEl] cell holds the element the menu hangs on, named here by
    its id. *)
Record Navbar := mkNavbar { anchorEl : option string }.

(** [Boolean(anchorEl)]. *)
Definition open (bar : Navbar) : bool := isSome (anchorEl bar).

Definition handleMenu (currentTarget : string) (bar : Navbar) : Navbar :=
  {| anchorEl := Some currentTarget |}.

Definition handleClose (bar : Navbar) : Navbar := {| anchorEl := None |}.

(** [onLogout] is the prop [App] passes down. *)
Definition handleLogoutClick (onLogout : State -> State)
    (bar : Navbar) (st : State) : Navbar * State :=
  let bar := handleClose bar in
  (bar, onLogout st).

(** The account menu is rendered only for a truthy [user]. *)
Definition showsMenu (st : State) : bool := truthyParsed (user st).

End App.

(** ** Files that passed a slot's check *)

(** The lower-cased final segment of the file's name is one of the
    extensions of the slot's card. *)
Definition accepted (toLowerCase : string -> string)
    (slot : FileUpload.Slot) (f : FileUpload.File) : Prop :=
  exists seg, finalSegment (FileUpload.name f) seg /\
              toLowerCase seg ∈ FileUpload.allowedTypes slot.

(** The slot a field of the form data comes from. *)
Definition fieldSlot (field : string) : option FileUpload.Slot :=
  if String.eqb field "sof_file" then Some FileUpload.Sof
  else if String.eqb field "cp_file" then Some FileUpload.Cp
  else if String.eqb field "additional_file" then Some FileUpload.Additional
  else None.

(** A request is checked when it is the POST to the processing endpoint,
    its first part is the SOF file, and every part holds a file accepted by
    the slot its field comes from. *)
Definition checkedRequest (toLowerCase : string -> string)
    (req : FileUpload.Request) : Prop :=
  exists sof rest,
    req = FileUpload.Fetch "http://localhost:8000/process-documents/" "POST"
            (("sof_file", sof) :: rest) /\
    forall field f, (field, f) ∈ ("sof_file", sof) :: rest ->
      exists slot, fieldSlot field = Some slot /\ accepted toLowerCase slot f.

(** Every file held in a slot was accepted by it, and every request in
    flight is checked. *)
Definition vetted (toLowerCase : string -> string)
    (c : FileUpload.Component) : Prop :=
  (forall slot f,
     FileUpload.slotFile slot (FileUpload.state c) = Some f ->
     accepted toLowerCase slot f) /\
  (forall req, req ∈ FileUpload.pending c -> checkedRequest toLowerCase req).



(** ** More sample inputs

    A stand-in for [JSON.stringify] and [JSON.parse] that knows the two
    mock users only. *)
Definition sample_stringify (r : Row) : string :=
  "{" +:+ join "," ((fun kv => kv.1 +:+ ":" +:+ toString kv.2) <$> r) +:+ "}".

Definition sample_parse (text : string) : FileUpload.Try App.Parsed :=
  if String.eqb text (sample_stringify (App.handleMockLogin "google"))
  then FileUpload.Return (App.Object (App.handleMockLogin "google"))
  else if String.eqb text (sample_stringify (App.handleMockLogin "apple"))
  then FileUpload.Return (App.Object (App.handleMockLogin "apple"))
  else FileUpload.Throw "Unexpected token".

(** * Properties of the upload component *)

Import FileUpload.

(** Closed decidable goals are settled by running their decision
    procedure. *)
Ltac by_computation := apply (bool_decide_unpack _); by vm_compute.

Lemma split_nonempty c s : split c s <> [].
Proof.
  destruct s as [|a s]; simpl; [done|].
  destruct (Ascii.eqb a c); [done|].
  destruct (split c s); done.
Qed.

Lemma split_no_dot s : hasDot s = false -> split "." s = [s].
Proof.
  induction s as [|a s IH]; simpl; [done|].
  intros [Ha Hs]%orb_false_iff. rewrite Ha, (IH Hs). done.
Qed.

Lemma lastPart_cons x parts :
  parts <> [] -> lastPart (x :: parts) = lastPart parts.
Proof.
  unfold lastPart. destruct parts as [|y parts]; [done|]. intros _. simpl.
  by rewrite Nat.sub_0_r.
Qed.

Lemma split_single s seg : split "." s = [seg] -> hasDot s = false.
Proof.
  revert seg. induction s as [|b s IH]; simpl; [done|].
  intros seg. destruct (Ascii.eqb b ".") eqn:Hb; simpl.
  - intros [= _ Hsp]. by destruct (split_nonempty "." s).
  - destruct (split "." s) as [|t ts] eqn:Hts; [by destruct (split_nonempty "." s)|].
    intros [= _ ->]. by apply (IH t).
Qed.

Lemma lastPart_split_cons a s :
  lastPart (split "." (String a s)) =
  if hasDot (String a s) then lastPart (split "." s)
  else Some (String a s).
Proof.
  simpl. destruct (Ascii.eqb a ".") eqn:Ha; simpl.
  - apply lastPart_cons, split_nonempty.
  - destruct (hasDot s) eqn:Hs.
    + destruct (split "." s) as [|seg segs] eqn:Hsp;
        [by destruct (split_nonempty "." s)|].
      destruct segs as [|seg' segs].
      * apply split_single in Hsp. congruence.
      * by rewrite (lastPart_cons (String a seg)), (lastPart_cons seg).
    + by rewrite (split_no_dot s Hs).
Qed.

Lemma hasDot_app s t : hasDot (s +:+ t) = hasDot s || hasDot t.
Proof.
  induction s as [|a s IH]; simpl; [done|]. by rewrite IH, orb_assoc.
Qed.

(** [split] followed by "take the last element" finds the final segment. *)
Lemma lastPart_split_final fileName seg :
  finalSegment fileName seg -> lastPart (split "." fileName) = Some seg.
Proof.
  intros [Hseg [->|[stem ->]]].
  - by rewrite split_no_dot.
  - induction stem as [|a stem IH].
    + change ("" +:+ "." +:+ seg) with (String "." seg).
      rewrite lastPart_split_cons. simpl. by rewrite split_no_dot.
    + change (String a stem +:+ "." +:+ seg)
        with (String a (stem +:+ "." +:+ seg)).
      rewrite lastPart_split_cons.
      change (hasDot (String a (stem +:+ "." +:+ seg)))
        with (Ascii.eqb a "." || hasDot (stem +:+ String "." seg)).
      rewrite hasDot_app. simpl. by rewrite !orb_true_r.
Qed.

Lemma includes_elem_of arr x : includes arr x = true <-> x ∈ arr.
Proof.
  unfold includes. rewrite existsb_exists. split.
  - intros (y & Hy & ->%String.eqb_eq). by apply list_elem_of_In.
  - intros Hx. exists x. split; [by apply list_elem_of_In | apply String.eqb_refl].
Qed.

Lemma slotFile_setter slot o st : slotFile slot (setter slot o st) = o.
Proof. by destruct slot. Qed.

Lemma error_setter slot o st : error (setter slot o st) = error st.
Proof. by destruct slot. Qed.

Lemma finalSegment_of_lastPart fileName seg :
  lastPart (split "." fileName) = Some seg -> finalSegment fileName seg.
Proof.
  revert seg. induction fileName as [|a s IH]; intros seg.
  - intros [= <-]. split; [done | by left].
  - rewrite lastPart_split_cons. destruct (hasDot (String a s)) eqn:Hd.
    + intros [Hseg Hs]%IH. split; [done|]. right.
      destruct Hs as [->|[stem ->]].
      * simpl in Hd. rewrite Hseg, orb_false_r in Hd.
        apply Ascii.eqb_eq in Hd as ->. by exists "".
      * by exists (String a stem).
    + intros [= <-]. split; [done | by left].
Qed.

Lemma finalSegment_total fileName : exists seg, finalSegment fileName seg.
Proof.
  pose proof (split_nonempty "." fileName) as Hne.
  destruct (lastPart (split "." fileName)) as [seg|] eqn:Hlast.
  - exists seg. by apply finalSegment_of_lastPart.
  - unfold lastPart in Hlast. apply lookup_ge_None in Hlast.
    destruct (split "." fileName); [done | simpl in Hlast; lia].
Qed.

Lemma finalSegment_unique fileName seg1 seg2 :
  finalSegment fileName seg1 -> finalSegment fileName seg2 -> seg1 = seg2.
Proof.
  intros H1%lastPart_split_final H2%lastPart_split_final. congruence.
Qed.

Section FileUploadProperties.

Variable toLowerCase : string -> string.
Variable nullPropertyError : string -> string.

(** What [handleFileChange] does with a file whose final segment is known. *)
Lemma handleFileChange_final slot allowed f seg st :
  finalSegment (name f) seg ->
  handleFileChange toLowerCase (setter slot) allowed (Some f) st =
  if includes allowed (toLowerCase seg)
  then setter slot (Some f) (setError "" st)
  else setter slot None
         (setError ("Invalid file type for this slot. Allowed: "
                    +:+ join ", " allowed) (setError "" st)).
Proof.
  intros Hseg. unfold handleFileChange.
  fold (lastPart (split "." (name f))).
  rewrite (lastPart_split_final _ _ Hseg).
  by destruct (includes allowed (toLowerCase seg)).
Qed.

(** C1: every file name has a final dot-delimited segment, and
    [handleFileChange] called with a file leaves that file in the slot
    exactly when the lower-cased segment is in the allowed list; when it is
    not, the slot is left empty and the error message lists the allowed
    extensions. *)
Theorem select_populates_iff_extension_allowed :
  forall (slot : Slot) (f : File) (allowed : list string) (st : State),
    let st' := handleFileChange toLowerCase (setter slot) allowed (Some f) st in
    exists seg : string,
      finalSegment (name f) seg /\
      (slotFile slot st' = Some f <-> toLowerCase seg ∈ allowed) /\
      (toLowerCase seg ∈ allowed -> error st' = "") /\
      (toLowerCase seg ∉ allowed ->
         slotFile slot st' = None /\
         error st' = "Invalid file type for this slot. Allowed: "
                     +:+ join ", " allowed).
Proof.
  intros slot f allowed st st'. subst st'.
  destruct (finalSegment_total (name f)) as [seg Hseg].
  exists seg. split; [done|].
  rewrite (handleFileChange_final _ _ _ _ _ Hseg).
  rewrite <- includes_elem_of.
  destruct (includes allowed (toLowerCase seg)) eqn:Hin;
    rewrite slotFile_setter, error_setter; simpl.
  - split; [done|]. split; [done|]. intros Hn. by destruct Hn.
  - split; [split; [done | intros [=] ]|]. split; [intros [=] | done].
Qed.

(** C10: a name without a dot is its own extension: such a file is kept
    exactly when its whole lower-cased name is in the allowed list.  A file
    named "pdf" is accepted by each of the three cards of the page, and
    "a.tar.gz" is judged by "gz" alone. *)
Theorem dotless_name_is_its_own_extension :
  (forall (slot : Slot) (f : File) (allowed : list string) (st : State),
     hasDot (name f) = false ->
     slotFile slot
       (handleFileChange toLowerCase (setter slot) allowed (Some f) st) = Some f
     <-> toLowerCase (name f) ∈ allowed) /\
  (forall (slot : Slot) (data : string) (st : State),
     slotFile slot
       (handleFileChange toLowerCase_ascii (setter slot) (allowedTypes slot)
          (Some (mkFile "pdf" data)) st) = Some (mkFile "pdf" data)) /\
  (forall (slot : Slot) (data : string) (allowed : list string) (st : State),
     slotFile slot
       (handleFileChange toLowerCase (setter slot) allowed
          (Some (mkFile "a.tar.gz" data)) st) = Some (mkFile "a.tar.gz" data)
     <-> toLowerCase "gz" ∈ allowed).
Proof.
  split; [|split].
  - intros slot f allowed st Hdot.
    rewrite (handleFileChange_final slot allowed f (name f));
      [|split; [done | by left]].
    rewrite <- includes_elem_of.
    destruct (includes allowed (toLowerCase (name f)));
      rewrite slotFile_setter; split; done.
  - intros slot data st. by destruct slot.
  - intros slot data allowed st.
    rewrite (handleFileChange_final slot allowed _ "gz");
      [|split; [done | right; by exists "a.tar"]].
    rewrite <- includes_elem_of.
    destruct (includes allowed (toLowerCase "gz"));
      rewrite slotFile_setter; split; done.
Qed.

Lemma loading_setter slot o st : loading (setter slot o st) = loading st.
Proof. by destruct slot. Qed.

Lemma loading_handleFileChange slot allowed file st :
  loading (handleFileChange toLowerCase (setter slot) allowed file st)
  = loading st.
Proof.
  unfold handleFileChange. destruct file as [f|]; [|by rewrite loading_setter].
  destruct (_ !! _); [|done].
  destruct (negb _); by rewrite loading_setter.
Qed.

Lemma loading_handleSubmit_settle r st :
  loading (handleSubmit_settle nullPropertyError r st).1 = false.
Proof. unfold handleSubmit_settle. by destruct (tryBlock _ _). Qed.

Lemma consistent_step c e :
  consistent c -> consistent (step toLowerCase nullPropertyError c e).
Proof.
  unfold consistent. intros Hc. destruct e as [slot file|slot| |r]; simpl.
  - by rewrite loading_handleFileChange.
  - destruct (slotFile slot (state c)); [simpl|done].
    by rewrite loading_setter.
  - unfold submitDisabled, handleSubmit.
    destruct (loading (state c)) eqn:Hl; simpl; [by rewrite Hl|].
    destruct (sofFile (state c)); simpl; [|by rewrite Hl].
    rewrite length_app, Hc. done.
  - destruct (pending c) as [|request rest] eqn:Hp; [by rewrite Hp|].
    pose proof (loading_handleSubmit_settle r (state c)) as Hl.
    destruct (handleSubmit_settle _ r (state c)) as [st nav]. simpl in *.
    rewrite Hl. destruct (loading (state c)); simpl in Hc; [|done].
    by destruct rest.
Qed.

Lemma consistent_run events c :
  consistent c -> consistent (run toLowerCase nullPropertyError c events).
Proof.
  revert c. induction events as [|e events IH]; intros c Hc; [done|].
  apply IH, consistent_step, Hc.
Qed.

(** An idle component with a SOF file answers a click on the submit button
    with one more pending request and sets [loading]. *)
Lemma idle_click_sends_one_request c sof :
  loading (state c) = false -> sofFile (state c) = Some sof ->
  let c' := step toLowerCase nullPropertyError c ClickSubmit in
  length (pending c') = S (length (pending c)) /\ loading (state c') = true.
Proof.
  intros Hl Hsof. simpl. unfold submitDisabled, handleSubmit.
  rewrite Hl, Hsof. simpl. rewrite length_app. simpl. split; [lia | done].
Qed.

(** The guard is the button's, not the handler's: called while a request is
    in flight, [handleSubmit] itself would send another one. *)
Lemma handleSubmit_has_no_guard st sof :
  sofFile st = Some sof -> loading st = true ->
  exists request, (handleSubmit st).2 = Some request.
Proof. intros Hsof _. unfold handleSubmit. rewrite Hsof. by eexists. Qed.

(** C3: in every state the mounted component can reach, at most one request
    is pending, one is pending exactly while [loading] is set, and a click
    on the submit button while [loading] is set changes nothing and sends
    nothing. *)
Theorem at_most_one_submission_in_flight :
  forall events : list Event,
    let c := run toLowerCase nullPropertyError mounted events in
    length (pending c) <= 1 /\
    (pending c <> [] <-> loading (state c) = true) /\
    (loading (state c) = true ->
       step toLowerCase nullPropertyError c ClickSubmit = c).
Proof.
  intros events c.
  assert (consistent c) as Hc by (by apply consistent_run).
  unfold consistent in Hc. split; [|split].
  - rewrite Hc. destruct (loading (state c)); lia.
  - destruct (loading (state c)), (pending c); simpl in Hc; split; done.
  - intros Hl. simpl. unfold submitDisabled. by rewrite Hl.
Qed.

(** After a response that is not [ok] the component is idle again, keeps
    its files and asks for no navigation, whatever the body was. *)
Lemma failure_returns_to_idle response st :
  ok response = false ->
  exists message,
    handleSubmit_settle nullPropertyError (FetchResolved response) st =
    (setLoading false
       (setError ("Failed to process documents: " +:+ message) st), None).
Proof.
  intros Hok. unfold handleSubmit_settle, tryBlock. simpl. rewrite Hok. simpl.
  unfold await_json. destruct (json response) as [message|[|detail pd]]; simpl;
    by eexists.
Qed.

(** When the body of such a response parses to something other than [null],
    the message carries the status and the detail, or the status text when
    the detail is missing or falsy. *)
Lemma failure_with_parsed_body status statusText detail pd st :
  handleSubmit_settle nullPropertyError
    (FetchResolved {| ok := false; status := status; statusText := statusText;
                      json := inr (BodyObject detail pd) |}) st =
  (setLoading false
     (setError ("Failed to process documents: Server error: "
                +:+ string_of_N status +:+ " - "
                +:+ (if truthy detail then toString detail else statusText))
        st), None).
Proof. reflexivity. Qed.

(** C4: when the body of a response that is not [ok] cannot be parsed as
    JSON, the message shown is the parser's: neither the status nor the
    status text reaches it.  A 500 answered with the plain text "Internal
    Server Error" is such a response. *)
Theorem failure_with_unparseable_body_drops_status :
  (forall (st : State) (status : N) (statusText message : string),
     handleSubmit_settle nullPropertyError
       (FetchResolved {| ok := false; status := status;
                         statusText := statusText; json := inl message |}) st =
     (setLoading false
        (setError ("Failed to process documents: " +:+ message) st), None)) /\
  (forall data : string,
     let sof := mkFile "sof.pdf" data in
     run toLowerCase_ascii nullPropertyError mounted
       [InputChange Sof (Some sof); ClickSubmit;
        Settle (FetchResolved
                  {| ok := false; status := 500;
                     statusText := "Internal Server Error";
                     json := inl "Unexpected token I in JSON at position 0" |})]
     = {| state :=
            {| sofFile := Some sof; cpFile := None; additionalFile := None;
               loading := false;
               error := "Failed to process documents: Unexpected token I in JSON at position 0" |};
          pending := []; navigated := [] |}).
Proof. split; reflexivity. Qed.

End FileUploadProperties.

(** C2: [handleSubmit] with no SOF file only sets the error message: no
    request is sent and every other cell keeps its value. *)
Theorem submit_without_primary_is_rejected :
  forall st : State,
    sofFile st = None ->
    handleSubmit st =
      (setError "Please upload the Statement of Facts document (SOF)." st, None).
Proof. intros st H. unfold handleSubmit. by rewrite H. Qed.

(** C8: the form data of a submission holds the SOF file under "sof_file",
    the CP file under "cp_file" and the additional file under
    "additional_file", each optional one exactly when its slot is filled;
    the field names are pairwise distinct, and with both optional slots
    empty the form data is the single SOF part. *)
Theorem payload_has_one_part_per_filled_slot :
  forall (st : State) (sof : File),
    sofFile st = Some sof ->
    exists (st' : State) (formData : FormData),
      handleSubmit st =
        (st', Some (Fetch "http://localhost:8000/process-documents/" "POST"
                          formData)) /\
      (forall (field : string) (f : File),
         (field, f) ∈ formData <->
           (field = "sof_file" /\ sofFile st = Some f) \/
           (field = "cp_file" /\ cpFile st = Some f) \/
           (field = "additional_file" /\ additionalFile st = Some f)) /\
      NoDup formData.*1 /\
      length formData =
        (1 + length (option_list (cpFile st))
           + length (option_list (additionalFile st)))%nat /\
      (cpFile st = None -> additionalFile st = None ->
         formData = [("sof_file", sof)]).
Proof.
  intros st sof Hsof. unfold handleSubmit. rewrite Hsof.
  eexists _, _. split; [reflexivity|].
  destruct (cpFile st) as [cp|], (additionalFile st) as [ad|]; simpl.
  all: split; [|split; [|split; [done|]]].
  all: try (intros field f; rewrite ?elem_of_cons, elem_of_nil;
            intuition congruence).
  all: try (intros; congruence).
  all: by_computation.
Qed.

(** * Properties of the results table *)

Import ResultsTable.

Lemma get_replace_eq k v r : has k r = true -> get k (replace k v r) = v.
Proof.
  induction r as [|[k' v'] r IH]; simpl; [done|].
  destruct (String.eqb k' k) eqn:Hk; simpl; rewrite Hk; auto.
Qed.

Lemma get_replace_ne k k0 v r : k0 <> k -> get k0 (replace k v r) = get k0 r.
Proof.
  intros Hne. induction r as [|[k' v'] r IH]; simpl; [done|].
  destruct (String.eqb k' k) eqn:Hk; simpl.
  - apply String.eqb_eq in Hk as ->.
    by apply not_eq_sym, String.eqb_neq in Hne as ->.
  - by rewrite IH.
Qed.

Lemma get_absent k r : has k r = false -> get k r = VUndefined.
Proof.
  induction r as [|[k' v'] r IH]; simpl; [done|].
  intros [-> Hr]%orb_false_iff. auto.
Qed.

Lemma get_app_absent k0 r k v :
  has k r = false ->
  get k0 (r ++ [(k, v)]) = if String.eqb k k0 then v else get k0 r.
Proof.
  induction r as [|[k' v'] r IH]; simpl.
  - by destruct (String.eqb k k0).
  - intros [Hk Hr]%orb_false_iff. destruct (String.eqb k' k0) eqn:Hk0.
    + apply String.eqb_eq in Hk0 as ->. apply String.eqb_neq in Hk.
      by apply not_eq_sym, String.eqb_neq in Hk as ->.
    + auto.
Qed.

Lemma get_insertIndexed_absent k0 n r k v :
  has k r = false ->
  get k0 (insertIndexed n k v r) = if String.eqb k k0 then v else get k0 r.
Proof.
  induction r as [|[k' v'] r IH]; simpl.
  - by destruct (String.eqb k k0).
  - intros [Hk Hr]%orb_false_iff.
    assert (get k0 ((k, v) :: (k', v') :: r)
            = if String.eqb k k0 then v else get k0 ((k', v') :: r)) as Hhead
      by done.
    destruct (arrayIndex k') as [m|]; [destruct (m <? n)%N|]; try exact Hhead.
    simpl. destruct (String.eqb k' k0) eqn:Hk0; [|auto].
    apply String.eqb_eq in Hk0 as ->. by rewrite (String.eqb_sym k), Hk.
Qed.

Lemma get_set k0 k v r :
  get k0 (set k v r) = if String.eqb k k0 then v else get k0 r.
Proof.
  unfold set. destruct (has k r) eqn:Hk.
  - destruct (String.eqb k k0) eqn:Hk0.
    + apply String.eqb_eq in Hk0 as <-. by apply get_replace_eq.
    + apply String.eqb_neq in Hk0. by apply get_replace_ne.
  - destruct (arrayIndex k);
      [by apply get_insertIndexed_absent | by apply get_app_absent].
Qed.

Lemma replace_same k v r : get k r = v -> replace k v r = r.
Proof.
  induction r as [|[k' v'] r IH]; simpl; [done|].
  destruct (String.eqb k' k); [by intros -> | intros Hr; by rewrite IH].
Qed.

(** Writing a text into a field leaves the row as it was exactly when the
    field already held that text. *)
Lemma set_same k v r : set k (VStr v) r = r <-> get k r = VStr v.
Proof.
  split.
  - intros Hr. rewrite <- Hr, get_set. by rewrite String.eqb_refl.
  - intros Hget. unfold set. destruct (has k r) eqn:Hk.
    + by apply replace_same.
    + by rewrite (get_absent _ _ Hk) in Hget.
Qed.

Lemma columns_not_id st field : field ∈ columns st -> field <> "id".
Proof.
  unfold columns. destruct (tableData st); [by intros ?%elem_of_nil|].
  by intros [? _]%list_elem_of_filter.
Qed.

(** Mapping the save step over rows none of which carries the buffer's id
    keeps them all. *)
Lemma save_map_no_match (id : Value) (buffer : Row) (rows : list Row) :
  (forall row, row ∈ rows -> get "id" row <> id) ->
  (fun row => if strict_eq (get "id" row) id then buffer else row) <$> rows
  = rows.
Proof.
  induction rows as [|row rows IH]; intros Hne; [done|].
  rewrite fmap_cons. f_equal.
  - unfold strict_eq. rewrite bool_decide_eq_false_2; [done|].
    apply Hne. by left.
  - apply IH. intros r Hr. apply Hne. by right.
Qed.

Lemma strict_neq_iff a b : strict_neq a b <-> a <> b.
Proof. unfold strict_neq, strict_eq. apply bool_decide_eq_false. Qed.

Lemma filter_keeps_all {A} (P : A -> Prop) `{!forall x, Decision (P x)}
    (l : list A) :
  (forall x, x ∈ l -> P x) -> filter P l = l.
Proof.
  induction l as [|x l IH]; intros HP; [done|].
  rewrite filter_cons_True by (apply HP; by left).
  f_equal. apply IH. intros y Hy. apply HP. by right.
Qed.

Lemma tableData_handleSaveEdit st :
  tableData (handleSaveEdit st) =
  (fun row => if strict_eq (get "id" row) (get "id" (currentEditedRow st))
              then spread (currentEditedRow st) else row) <$> tableData st.
Proof. reflexivity. Qed.

Lemma tableData_deleteRecord id st :
  tableData (handleConfirmDelete (handleDeleteClick id st)) =
  filter (fun row => strict_neq (get "id" row) id) (tableData st).
Proof. reflexivity. Qed.

Lemma deleteRecord_state id st :
  handleConfirmDelete (handleDeleteClick id st) =
  {| tableData := filter (fun row => strict_neq (get "id" row) id) (tableData st);
     editDialogOpen := editDialogOpen st;
     deleteDialogOpen := false;
     currentRowToEdit := currentRowToEdit st;
     currentEditedRow := currentEditedRow st;
     rowToDeleteId := VNull |}.
Proof. reflexivity. Qed.

(** C5: with pairwise distinct ids in the table, editing a row [r] of it,
    typing [v] into one of the dialog's fields and saving puts the edited
    copy in the place of [r] and leaves every row before and after it as it
    was.  The copy holds [v] in that field and agrees with [r] on every
    other field, so it is [r] again exactly when [r] already held [v]
    there.  Saving while no row carries the buffer's id leaves the table as
    it was. *)
Theorem commit_edit_replaces_only_the_edited_row :
  (forall (st : State) (r : Row) (field v : string),
     r ∈ tableData st ->
     NoDup (get "id" <$> tableData st) ->
     field ∈ columns st ->
     let st' := handleSaveEdit (handleFieldChange field v (handleEditClick r st)) in
     exists (before after : list Row) (r' : Row),
       tableData st = before ++ r :: after /\
       tableData st' = before ++ r' :: after /\
       get "id" r' = get "id" r /\
       get field r' = VStr v /\
       (forall k, k <> field -> get k r' = get k r) /\
       (r' = r <-> get field r = VStr v)) /\
  (forall st : State,
     (forall row, row ∈ tableData st ->
                  get "id" row <> get "id" (currentEditedRow st)) ->
     tableData (handleSaveEdit st) = tableData st).
Proof.
  split.
  - intros st r field v Hr Hids Hfield st'. subst st'.
    apply columns_not_id in Hfield.
    destruct (list_elem_of_split _ _ Hr) as (before & after & Hsplit).
    exists before, after, (set field (VStr v) r).
    assert (forall k, k <> field -> get k (set field (VStr v) r) = get k r)
      as Hframe.
    { intros k Hk. rewrite get_set.
      by apply not_eq_sym, String.eqb_neq in Hk as ->. }
    split; [done|]. split; [|split; [|split; [|split]]].
    + rewrite tableData_handleSaveEdit. simpl. unfold spread.
      rewrite Hsplit in Hids |- *.
      rewrite fmap_app, fmap_cons in Hids.
      apply list.NoDup_app in Hids as (_ & Hbefore & Hafter).
      apply list.NoDup_cons in Hafter as [Hafter _].
      rewrite (Hframe "id") by done.
      rewrite fmap_app, fmap_cons.
      unfold strict_eq at 2. rewrite bool_decide_eq_true_2 by done.
      rewrite !save_map_no_match; [done| |].
      * intros row Hrow Heq. apply Hafter. rewrite <- Heq.
        by apply list_elem_of_fmap_2.
      * intros row Hrow Heq.
        apply (Hbefore (get "id" row)); [by apply list_elem_of_fmap_2|].
        rewrite Heq. by left.
    + by apply Hframe.
    + rewrite get_set. by rewrite String.eqb_refl.
    + done.
    + apply set_same.
  - intros st Hne. rewrite tableData_handleSaveEdit.
    by apply save_map_no_match.
Qed.

(** C6: confirming the deletion of [id] keeps exactly the rows whose id is
    not [id], in their order; when no row carries [id] the table is left as
    it was; and deleting [id] a second time changes nothing. *)
Theorem delete_record_is_idempotent :
  forall (st : State) (id : Value),
    let st1 := handleConfirmDelete (handleDeleteClick id st) in
    let st2 := handleConfirmDelete (handleDeleteClick id st1) in
    (forall row, row ∈ tableData st1 <->
                 row ∈ tableData st /\ get "id" row <> id) /\
    tableData st1 `sublist_of` tableData st /\
    ((forall row, row ∈ tableData st -> get "id" row <> id) ->
       tableData st1 = tableData st) /\
    st2 = st1.
Proof.
  intros st id st1 st2. subst st1 st2.
  assert (forall row,
            row ∈ tableData (handleConfirmDelete (handleDeleteClick id st)) <->
            row ∈ tableData st /\ get "id" row <> id) as Hmem.
  { intros row. rewrite tableData_deleteRecord, list_elem_of_filter.
    rewrite strict_neq_iff. tauto. }
  split; [done|]. split; [|split].
  - rewrite tableData_deleteRecord. apply sublist_filter.
  - intros Hne. rewrite tableData_deleteRecord. apply filter_keeps_all.
    intros row Hrow. by apply strict_neq_iff, Hne.
  - rewrite (deleteRecord_state id st), deleteRecord_state. cbn [tableData
      editDialogOpen deleteDialogOpen currentRowToEdit currentEditedRow].
    f_equal. apply filter_keeps_all. intros row Hrow.
    apply list_elem_of_filter in Hrow as [Hrow _]. done.
Qed.

(** C7: with an empty table [columns] is empty; otherwise it is the key
    list of the first row with "id" dropped and the order kept.  It is a
    function of the table alone, so it follows every change of the table;
    in particular, right after mounting with a non-empty [processedData] it
    is the key list of the first delivered row without "id". *)
Theorem columns_are_first_row_keys_without_id :
  (forall st : State, tableData st = [] -> columns st = []) /\
  (forall (st : State) (row : Row) (rest : list Row),
     tableData st = row :: rest ->
     columns st = filter (fun key => key <> "id") (keys row) /\
     columns st `sublist_of` keys row /\
     (forall key, key ∈ columns st <-> key ∈ keys row /\ key <> "id")) /\
  (forall st1 st2 : State,
     tableData st1 = tableData st2 -> columns st1 = columns st2) /\
  (forall (row : Row) (rest : list Row),
     columns (mount (Some (Some (row :: rest))))
     = filter (fun key => key <> "id") (keys row)).
Proof.
  split; [|split; [|split]].
  - intros st H. unfold columns. by rewrite H.
  - intros st row rest H. unfold columns. rewrite H.
    split; [done|]. split; [apply sublist_filter|].
    intros key. rewrite list_elem_of_filter. tauto.
  - intros st1 st2 H. unfold columns. by rewrite H.
  - done.
Qed.

Section ExportProperties.

Variable unparse : list Row -> string.
Variable stringify : list Row -> string.

(** C9: with an empty table both download handlers only raise the alert
    "No data to download.": nothing is downloaded and the state, the table
    with it, is left as it was. *)
Theorem export_of_empty_table_is_rejected :
  forall st : State,
    tableData st = [] ->
    handleDownloadCSV unparse st = (st, [Alert "No data to download."]) /\
    handleDownloadJSON stringify st = (st, [Alert "No data to download."]).
Proof.
  intros st H. unfold handleDownloadCSV, handleDownloadJSON. by rewrite H.
Qed.

End ExportProperties.

(** * Worked instances *)

(** A ".DOCX" file goes into the SOF slot; a ".png" file does not, and the
    message ends in "pdf, docx". *)
Lemma select_docx_then_png :
  let ok := handleFileChange toLowerCase_ascii setSofFile ["pdf"; "docx"]
              (Some statement_docx) FileUpload.initial in
  let ko := handleFileChange toLowerCase_ascii setSofFile ["pdf"; "docx"]
              (Some scan_png) ok in
  sofFile ok = Some statement_docx /\
  sofFile ko = None /\
  error ko = "Invalid file type for this slot. Allowed: pdf, docx".
Proof.
  intros ok ko.
  destruct (select_populates_iff_extension_allowed toLowerCase_ascii Sof
              statement_docx ["pdf"; "docx"] FileUpload.initial)
    as (seg & Hseg & Haccept & _).
  destruct (select_populates_iff_extension_allowed toLowerCase_ascii Sof
              scan_png ["pdf"; "docx"] ok)
    as (seg' & Hseg' & _ & _ & Hreject).
  rewrite (finalSegment_unique _ _ "DOCX" Hseg) in Haccept
    by (split; [done | right; by exists "Statement"]).
  rewrite (finalSegment_unique _ _ "png" Hseg') in Hreject
    by (split; [done | right; by exists "scan"]).
  split.
  - apply Haccept. by_computation.
  - apply Hreject. by_computation.
Defined.

Lemma submit_on_a_fresh_page :
  sofFile FileUpload.initial = None /\
  handleSubmit FileUpload.initial =
    (setError "Please upload the Statement of Facts document (SOF)."
       FileUpload.initial, None).
Proof.
  split; [reflexivity|].
  apply (submit_without_primary_is_rejected FileUpload.initial). reflexivity.
Defined.

Lemma second_click_while_loading :
  let c := run toLowerCase_ascii nullPropertyError_v8 mounted
             [InputChange Sof (Some statement_docx); ClickSubmit] in
  loading (state c) = true /\
  length (pending c) = 1%nat /\
  step toLowerCase_ascii nullPropertyError_v8 c ClickSubmit = c.
Proof.
  intros c.
  destruct (at_most_one_submission_in_flight toLowerCase_ascii
              nullPropertyError_v8
              [InputChange Sof (Some statement_docx); ClickSubmit])
    as (_ & _ & Hclick).
  split; [reflexivity|]. split; [reflexivity|]. apply Hclick. reflexivity.
Defined.

Lemma submit_with_only_the_sof_file :
  let st := setSofFile (Some statement_docx) FileUpload.initial in
  sofFile st = Some statement_docx /\
  exists st', handleSubmit st =
    (st', Some (Fetch "http://localhost:8000/process-documents/" "POST"
                      [("sof_file", statement_docx)])).
Proof.
  intros st. split; [reflexivity|].
  destruct (payload_has_one_part_per_filled_slot st statement_docx)
    as (st' & formData & Hsubmit & _ & _ & _ & Honly); [reflexivity|].
  exists st'. rewrite Hsubmit, Honly; reflexivity.
Defined.

Lemma file_named_pdf_is_accepted :
  hasDot "pdf" = false /\
  cpFile (handleFileChange toLowerCase_ascii setCpFile ["pdf"; "docx"]
            (Some (mkFile "pdf" "%PDF")) FileUpload.initial)
  = Some (mkFile "pdf" "%PDF").
Proof.
  split; [reflexivity|].
  destruct (dotless_name_is_its_own_extension toLowerCase_ascii)
    as (Hdotless & _ & _).
  apply (Hdotless Cp (mkFile "pdf" "%PDF") ["pdf"; "docx"] FileUpload.initial);
    [reflexivity|].
  by_computation.
Defined.

Lemma edit_the_port_of_the_second_row :
  let st' := handleSaveEdit
               (handleFieldChange "port" "Sikka"
                  (handleEditClick row_beta delivered)) in
  row_beta ∈ tableData delivered /\
  NoDup (get "id" <$> tableData delivered) /\
  "port" ∈ columns delivered /\
  exists (before after : list Row) (r' : Row),
    tableData delivered = before ++ row_beta :: after /\
    tableData st' = before ++ r' :: after /\
    get "id" r' = get "id" row_beta /\
    get "port" r' = VStr "Sikka" /\
    (forall k, k <> "port" -> get k r' = get k row_beta) /\
    (r' = row_beta <-> get "port" row_beta = VStr "Sikka").
Proof.
  intros st'.
  assert (row_beta ∈ tableData delivered) as Hrow
    by (by_computation).
  assert (NoDup (get "id" <$> tableData delivered)) as Hids
    by (by_computation).
  assert ("port" ∈ columns delivered) as Hcol
    by (by_computation).
  split; [done|]. split; [done|]. split; [done|].
  apply (proj1 commit_edit_replaces_only_the_edited_row
           delivered row_beta "port" "Sikka" Hrow Hids Hcol).
Defined.

Lemma delete_an_absent_id :
  let st1 := handleConfirmDelete (handleDeleteClick (VNum 7) delivered) in
  (forall row, row ∈ tableData delivered -> get "id" row <> VNum 7) /\
  tableData st1 = tableData delivered /\
  handleConfirmDelete (handleDeleteClick (VNum 7) st1) = st1.
Proof.
  intros st1.
  assert (forall row, row ∈ tableData delivered -> get "id" row <> VNum 7)
    as Habsent.
  { intros row Hrow. apply (list_elem_of_fmap_2 (get "id")) in Hrow.
    intros Heq. rewrite Heq in Hrow. revert Hrow.
    by_computation. }
  destruct (delete_record_is_idempotent delivered (VNum 7))
    as (_ & _ & Hnoop & Hagain).
  split; [done|]. split; [by apply Hnoop | exact Hagain].
Defined.

Lemma columns_of_the_delivered_table :
  tableData delivered = [row_alpha; row_beta] /\
  columns delivered = ["vessel"; "port"].
Proof.
  split; [reflexivity|].
  destruct columns_are_first_row_keys_without_id as (_ & Hfirst & _ & _).
  destruct (Hfirst delivered row_alpha [row_beta]) as (-> & _); [reflexivity|].
  by vm_compute.
Defined.

Lemma export_after_clearing :
  let st := handleTableWiseDelete true delivered in
  tableData st = [] /\
  handleDownloadCSV (fun _ => "") st = (st, [Alert "No data to download."]) /\
  handleDownloadJSON (fun _ => "[]") st = (st, [Alert "No data to download."]).
Proof.
  intros st. split; [reflexivity|].
  apply (export_of_empty_table_is_rejected (fun _ => "") (fun _ => "[]") st).
  reflexivity.
Defined.

(** * Further properties of the upload component *)

Lemma slotFile_setter_ne slot slot' o st :
  slot <> slot' ->
  FileUpload.slotFile slot' (FileUpload.setter slot o st)
  = FileUpload.slotFile slot' st.
Proof. by destruct slot, slot'. Qed.

Lemma slotFile_setError slot e st :
  FileUpload.slotFile slot (FileUpload.setError e st)
  = FileUpload.slotFile slot st.
Proof. by destruct slot. Qed.

Lemma slotFile_setLoading slot b st :
  FileUpload.slotFile slot (FileUpload.setLoading b st)
  = FileUpload.slotFile slot st.
Proof. by destruct slot. Qed.

Lemma slot_eq_or_ne (slot other : FileUpload.Slot) :
  slot = other \/ slot <> other.
Proof. destruct slot, other; (by left) || by right. Qed.

Lemma isCapital_lower_ascii a :
  ResultsTableView.isCapital (lower_ascii a) = false.
Proof. by destruct a as [[] [] [] [] [] [] [] []]. Qed.

Lemma hasCapital_toLowerCase_ascii s :
  ResultsTableView.hasCapital (toLowerCase_ascii s) = false.
Proof.
  induction s as [|a s IH]; simpl; [done|].
  by rewrite isCapital_lower_ascii, IH.
Qed.

Section MoreFileUploadProperties.

Variable toLowerCase : string -> string.
Variable nullPropertyError : string -> string.

(** A file sits in the slot after [handleFileChange] only if it is the file
    just offered and its extension is allowed. *)
Lemma handleFileChange_populated slot allowed file f st :
  FileUpload.slotFile slot
    (handleFileChange toLowerCase (setter slot) allowed file st) = Some f ->
  file = Some f /\
  exists seg, finalSegment (name f) seg /\ toLowerCase seg ∈ allowed.
Proof.
  destruct file as [g|].
  - destruct (finalSegment_total (name g)) as [seg Hseg].
    rewrite (handleFileChange_final toLowerCase slot allowed g seg st Hseg).
    destruct (includes allowed (toLowerCase seg)) eqn:Hin;
      rewrite slotFile_setter; [|done].
    intros [= ->]. split; [done|]. exists seg. split; [done|].
    by apply includes_elem_of.
  - unfold handleFileChange. by rewrite slotFile_setter.
Qed.

Lemma slotFile_handleFileChange_other slot other allowed file st :
  slot <> other ->
  slotFile other (handleFileChange toLowerCase (setter slot) allowed file st)
  = slotFile other st.
Proof.
  intros Hne. unfold handleFileChange. destruct file as [f|].
  - destruct (_ !! _); [|by rewrite slotFile_setError].
    destruct (negb _);
      by rewrite slotFile_setter_ne, ?slotFile_setError.
  - by rewrite slotFile_setter_ne, slotFile_setError.
Qed.

(** X1: offering a file to one slot, accepted, rejected or none at all,
    leaves the files of the other two slots and the [loading] flag as they
    were. *)
Theorem selection_leaves_the_other_slots :
  forall (slot other : Slot) (allowed : list string) (file : option File)
         (st : FileUpload.State),
    slot <> other ->
    let st' := handleFileChange toLowerCase (setter slot) allowed file st in
    slotFile other st' = slotFile other st /\ loading st' = loading st.
Proof.
  intros slot other allowed file st Hne st'. subst st'.
  split; [by apply slotFile_handleFileChange_other|].
  apply loading_handleFileChange.
Qed.

Lemma slotFile_handleSubmit slot st :
  slotFile slot (handleSubmit st).1 = slotFile slot st.
Proof.
  unfold handleSubmit. destruct (sofFile st); simpl;
    by rewrite ?slotFile_setError, ?slotFile_setLoading.
Qed.

Lemma slotFile_handleSubmit_settle slot r st :
  slotFile slot (handleSubmit_settle nullPropertyError r st).1
  = slotFile slot st.
Proof.
  unfold handleSubmit_settle. destruct (tryBlock _ _); simpl;
    by rewrite ?slotFile_setLoading, ?slotFile_setError.
Qed.

Lemma handleSubmit_checked st req :
  (forall slot f, slotFile slot st = Some f -> accepted toLowerCase slot f) ->
  (handleSubmit st).2 = Some req -> checkedRequest toLowerCase req.
Proof.
  intros Hslots. unfold handleSubmit.
  destruct (sofFile st) as [sof|] eqn:Hsof; [|done].
  simpl. intros [= <-].
  pose proof (Hslots Sof sof Hsof) as Hs.
  destruct (cpFile st) as [cp|] eqn:Hcp;
    destruct (additionalFile st) as [ad|] eqn:Had; simpl;
    eexists _, _; (split; [reflexivity|]); intros field f Hin;
    repeat (apply elem_of_cons in Hin as [[= -> ->]|Hin]);
    try (by apply elem_of_nil in Hin).
  all: try (exists Sof; by split).
  all: try (exists Cp; split; [done | by apply (Hslots Cp)]).
  all: exists Additional; split; [done | by apply (Hslots Additional)].
Qed.

Lemma vetted_step c e :
  vetted toLowerCase c ->
  vetted toLowerCase (step toLowerCase nullPropertyError c e).
Proof.
  intros [Hslots Hreqs]. destruct e as [slot file|slot| |r]; simpl.
  - split; [|done]. simpl. intros other f Hf.
    destruct (slot_eq_or_ne slot other) as [<-|Hne].
    + apply handleFileChange_populated in Hf as [_ Hf]. exact Hf.
    + apply Hslots.
      by rewrite <- (slotFile_handleFileChange_other
                       slot other (allowedTypes slot) file (state c) Hne).
  - destruct (slotFile slot (state c)) as [held|] eqn:Hslot; [|done].
    split; [|done]. simpl. intros other f Hf.
    destruct (slot_eq_or_ne slot other) as [<-|Hne].
    + by rewrite slotFile_setter in Hf.
    + apply Hslots. by rewrite slotFile_setter_ne in Hf.
  - destruct (submitDisabled (state c)); [done|].
    pose proof (fun slot => slotFile_handleSubmit slot (state c)) as Hkeep.
    pose proof (handleSubmit_checked (state c)) as Hnew.
    destruct (handleSubmit (state c)) as [st request]. simpl in *.
    split; simpl.
    + intros slot f Hf. apply Hslots. by rewrite <- Hkeep.
    + intros req [Hreq|Hreq]%elem_of_app; [by apply Hreqs|].
      destruct request as [request|]; [|by apply elem_of_nil in Hreq].
      apply list_elem_of_singleton in Hreq as ->. by apply Hnew.
  - destruct (pending c) as [|request rest] eqn:Hp.
    { split; [done|]. intros req. rewrite Hp. apply Hreqs. }
    pose proof (fun slot => slotFile_handleSubmit_settle slot r (state c))
      as Hkeep.
    destruct (handleSubmit_settle _ r (state c)) as [st nav]. simpl in *.
    split; simpl.
    + intros slot f Hf. apply Hslots. by rewrite <- Hkeep.
    + intros req Hreq. apply Hreqs. by right.
Qed.

Lemma vetted_run events c :
  vetted toLowerCase c ->
  vetted toLowerCase (run toLowerCase nullPropertyError c events).
Proof.
  revert c. induction events as [|e events IH]; intros c Hc; [done|].
  apply IH, vetted_step, Hc.
Qed.

Lemma vetted_mounted : vetted toLowerCase mounted.
Proof. split; [by intros [] | by intros req ?%elem_of_nil]. Qed.

(** X2: whatever the user does, a file held in a slot of the mounted
    component is one that passed the check of that slot's card. *)
Theorem held_files_passed_the_check :
  forall (events : list Event) (slot : Slot) (f : File),
    slotFile slot
      (state (run toLowerCase nullPropertyError mounted events)) = Some f ->
    accepted toLowerCase slot f.
Proof.
  intros events. apply (vetted_run events mounted vetted_mounted).
Qed.

(** X3: whatever the user does, every request in flight is the POST to the
    processing endpoint, starts with the SOF file, and carries only files
    that passed the check of the slot they were picked in. *)
Theorem sent_files_passed_the_check :
  forall (events : list Event) (req : Request),
    req ∈ pending (run toLowerCase nullPropertyError mounted events) ->
    checkedRequest toLowerCase req.
Proof.
  intros events. apply (vetted_run events mounted vetted_mounted).
Qed.

End MoreFileUploadProperties.

(** X4: [handleSubmit]'s second half always ends idle and never touches the
    slots.  It asks for the results page exactly when the fetch resolved
    with an [ok] response whose body parsed to something other than [null],
    then with that body's [processed_data] and without touching the error
    message; in every other case it only leaves a message that starts with
    "Failed to process documents: ". *)
Theorem settle_navigates_only_on_a_parsed_success :
  forall (nullPropertyError : string -> string) (r : FetchResult)
         (st : FileUpload.State),
    let out := handleSubmit_settle nullPropertyError r st in
    loading out.1 = false /\
    (forall slot, slotFile slot out.1 = slotFile slot st) /\
    ((exists response detail processed_data,
        r = FetchResolved response /\ ok response = true /\
        json response = inr (BodyObject detail processed_data) /\
        out = (setLoading false st,
               Some (Navigate "/results" processed_data)))
     \/
     ((forall response detail processed_data,
         r = FetchResolved response -> ok response = true ->
         json response <> inr (BodyObject detail processed_data)) /\
      exists message,
        out = (setLoading false
                 (setError ("Failed to process documents: " +:+ message) st),
               None))).
Proof.
  intros npe r st out. subst out.
  split; [apply loading_handleSubmit_settle|].
  split; [intros slot; apply slotFile_handleSubmit_settle|].
  destruct r as [message|[isOk code text body]].
  - right. split; [by intros ? ? ? [=]|]. by exists message.
  - destruct isOk.
    + destruct body as [message|[|detail processed_data]].
      * right. split; [|by eexists].
        intros ? ? ? [= <-] _. simpl. by intros [=].
      * right. split; [|by eexists].
        intros ? ? ? [= <-] _. simpl. by intros [=].
      * left. by exists (mkResponse true code text (inr (BodyObject detail processed_data))),
                  detail, processed_data.
    + right. split; [by intros ? ? ? [= <-] [=]|].
      apply (failure_returns_to_idle npe). done.
Qed.

(** * Further properties of the results table *)

Import ResultsTableView.

Lemma tableData_typeAll changes st :
  tableData (typeAll changes st) = tableData st.
Proof.
  revert st. induction changes as [|change changes IH]; intros st; [done|].
  simpl. by rewrite IH.
Qed.

Lemma currentEditedRow_typeAll changes st :
  currentEditedRow (typeAll changes st) = typed changes (currentEditedRow st).
Proof.
  revert st. induction changes as [|change changes IH]; intros st; [done|].
  simpl. by rewrite IH.
Qed.



Lemma get_typed_untouched k changes r :
  k ∉ changes.*1 -> get k (typed changes r) = get k r.
Proof.
  revert r. induction changes as [|[k' v'] changes IH]; intros r Hk; [done|].
  apply not_elem_of_cons in Hk as [Hk Hrest]. simpl in *.
  change (get k (typed changes (set k' (VStr v') (spread r))) = get k r).
  rewrite IH by done. unfold spread. rewrite get_set.
  by apply not_eq_sym, String.eqb_neq in Hk as ->.
Qed.

Lemma typed_app changes1 changes2 r :
  typed (changes1 ++ changes2) r = typed changes2 (typed changes1 r).
Proof. unfold typed. apply foldl_app. Qed.

(** The last text typed into a field is the one the buffer holds. *)
Lemma get_typed_last earlier k v later r :
  k ∉ later.*1 -> get k (typed (earlier ++ (k, v) :: later) r) = VStr v.
Proof.
  intros Hk. rewrite typed_app.
  change (typed ((k, v) :: later) (typed earlier r))
    with (typed later (set k (VStr v) (spread (typed earlier r)))).
  rewrite get_typed_untouched by done. rewrite get_set.
  by rewrite String.eqb_refl.
Qed.


(** Saving puts the buffer in the place of the one row that carries its
    id. *)
Lemma save_replaces_the_row st before r after :
  tableData st = before ++ r :: after ->
  NoDup (get "id" <$> tableData st) ->
  get "id" (currentEditedRow st) = get "id" r ->
  tableData (handleSaveEdit st) = before ++ currentEditedRow st :: after.
Proof.
  intros Hsplit Hids Hid. rewrite tableData_handleSaveEdit. unfold spread.
  rewrite Hsplit in Hids |- *. rewrite fmap_app, fmap_cons in Hids.
  apply list.NoDup_app in Hids as (_ & Hbefore & Hafter).
  apply list.NoDup_cons in Hafter as [Hafter _].
  rewrite fmap_app, fmap_cons, Hid.
  unfold strict_eq at 2. rewrite bool_decide_eq_true_2 by done.
  rewrite !save_map_no_match; [done| |].
  - intros row Hrow Heq. apply Hafter. rewrite <- Heq.
    by apply list_elem_of_fmap_2.
  - intros row Hrow Heq.
    apply (Hbefore (get "id" row)); [by apply list_elem_of_fmap_2|].
    rewrite Heq. by left.
Qed.

(** X5: with pairwise distinct ids, editing a row, typing any number of
    texts into the dialog's fields and saving replaces that row alone.  The
    new row keeps the id, keeps every field that was not typed into, and in
    each field typed into holds the text typed there last; with nothing
    typed it is the old row. *)
Theorem save_after_typing_keeps_the_last_text_of_each_field :
  forall (st : State) (r : Row) (changes : list (string * string)),
    r ∈ tableData st ->
    NoDup (get "id" <$> tableData st) ->
    Forall (fun change => change.1 ∈ columns st) changes ->
    let st' := handleSaveEdit (typeAll changes (handleEditClick r st)) in
    exists (before after : list Row) (r' : Row),
      tableData st = before ++ r :: after /\
      tableData st' = before ++ r' :: after /\
      get "id" r' = get "id" r /\
      (forall k, k ∉ changes.*1 -> get k r' = get k r) /\
      (forall earlier k v later,
         changes = earlier ++ (k, v) :: later -> k ∉ later.*1 ->
         get k r' = VStr v) /\
      (changes = [] -> r' = r).
Proof.
  intros st r changes Hr Hids Hfields st'. subst st'.
  destruct (list_elem_of_split _ _ Hr) as (before & after & Hsplit).
  exists before, after, (typed changes r).
  assert (get "id" (typed changes r) = get "id" r) as Hid.
  { apply get_typed_untouched. intros (change & Hk & Hin)%list_elem_of_fmap.
    rewrite list.Forall_forall in Hfields.
    apply (columns_not_id st (change.1)); [by apply Hfields | done]. }
  split; [done|]. split; [|split; [done|split; [|split]]].
  - rewrite (save_replaces_the_row _ before r after).
    + by rewrite currentEditedRow_typeAll.
    + by rewrite tableData_typeAll.
    + by rewrite tableData_typeAll.
    + by rewrite currentEditedRow_typeAll.
  - intros k Hk. by apply get_typed_untouched.
  - intros earlier k v later -> Hk. by apply get_typed_last.
  - by intros ->.
Qed.


Lemma ids_of_saved_rows (id : Value) (buffer : Row) (rows : list Row) :
  get "id" buffer = id ->
  get "id" <$> ((fun row => if strict_eq (get "id" row) id
                            then buffer else row) <$> rows)
  = get "id" <$> rows.
Proof.
  intros Hid. induction rows as [|row rows IH]; [done|].
  rewrite !fmap_cons, IH. f_equal.
  unfold strict_eq. case_bool_decide; congruence.
Qed.

(** X7: saving never changes the id of any row or the number of rows,
    whatever the buffer holds; deleting leaves a sub-sequence of the ids.
    So a table whose ids are pairwise distinct keeps that property through
    every save, every delete and every clearing. *)
Theorem mutations_keep_ids_distinct :
  (forall st : State,
     get "id" <$> tableData (handleSaveEdit st) = get "id" <$> tableData st /\
     length (tableData (handleSaveEdit st)) = length (tableData st)) /\
  (forall (st : State) (id : Value),
     (get "id" <$> tableData (handleConfirmDelete (handleDeleteClick id st)))
       `sublist_of` (get "id" <$> tableData st)) /\
  (forall (st : State) (id : Value) (confirmDeleteAll : bool),
     NoDup (get "id" <$> tableData st) ->
     NoDup (get "id" <$> tableData (handleSaveEdit st)) /\
     NoDup (get "id" <$>
              tableData (handleConfirmDelete (handleDeleteClick id st))) /\
     NoDup (get "id" <$>
              tableData (handleTableWiseDelete confirmDeleteAll st))).
Proof.
  assert (forall st : State,
            get "id" <$> tableData (handleSaveEdit st)
            = get "id" <$> tableData st) as Hsave.
  { intros st. rewrite tableData_handleSaveEdit. by apply ids_of_saved_rows. }
  assert (forall (st : State) (id : Value),
            (get "id" <$>
               tableData (handleConfirmDelete (handleDeleteClick id st)))
              `sublist_of` (get "id" <$> tableData st)) as Hdelete.
  { intros st id. rewrite tableData_deleteRecord.
    apply fmap_sublist, sublist_filter. }
  split; [|split].
  - intros st. split; [done|].
    rewrite tableData_handleSaveEdit. apply length_fmap.
  - done.
  - intros st id confirmDeleteAll Hids. split; [|split].
    + by rewrite Hsave.
    + exact (sublist_NoDup _ _ Hids (Hdelete st id)).
    + destruct confirmDeleteAll; [apply NoDup_nil_2 | done].
Qed.

Lemma filter_drops_the_row id (before after : list Row) r :
  get "id" r = id ->
  (forall row, row ∈ before ++ after -> get "id" row <> id) ->
  filter (fun row => strict_neq (get "id" row) id) (before ++ r :: after)
  = before ++ after.
Proof.
  intros Hid Hothers. rewrite list.filter_app, filter_cons_False.
  - rewrite !filter_keeps_all; [done| |].
    + intros row Hrow. apply strict_neq_iff, Hothers, elem_of_app. by right.
    + intros row Hrow. apply strict_neq_iff, Hothers, elem_of_app. by left.
  - rewrite strict_neq_iff. by intros Hne.
Qed.

(** X8: with pairwise distinct ids, deleting the id of a row of the table
    removes that row and no other: the rows before it and after it stay, in
    place, and the table is one row shorter. *)
Theorem delete_removes_exactly_the_row :
  forall (st : State) (r : Row),
    r ∈ tableData st ->
    NoDup (get "id" <$> tableData st) ->
    let st' := handleConfirmDelete (handleDeleteClick (get "id" r) st) in
    exists before after : list Row,
      tableData st = before ++ r :: after /\
      tableData st' = before ++ after /\
      S (length (tableData st')) = length (tableData st).
Proof.
  intros st r Hr Hids st'. subst st'.
  destruct (list_elem_of_split _ _ Hr) as (before & after & Hsplit).
  exists before, after. split; [done|].
  rewrite tableData_deleteRecord, Hsplit.
  rewrite Hsplit, fmap_app, fmap_cons in Hids.
  apply list.NoDup_app in Hids as (_ & Hbefore & Hafter).
  apply list.NoDup_cons in Hafter as [Hafter _].
  rewrite filter_drops_the_row; [|done|].
  - split; [done|]. rewrite !length_app. simpl. lia.
  - intros row [Hrow|Hrow]%elem_of_app Heq.
    + apply (Hbefore (get "id" row)); [by apply list_elem_of_fmap_2|].
      rewrite Heq. by left.
    + apply Hafter. rewrite <- Heq. by apply list_elem_of_fmap_2.
Qed.

Lemma filter_comm {A} (P Q : A -> Prop)
    `{!forall x, Decision (P x)} `{!forall x, Decision (Q x)} (l : list A) :
  filter P (filter Q l) = filter Q (filter P l).
Proof.
  induction l as [|x l IH]; [done|].
  destruct (decide (Q x)) as [HQ|HQ], (decide (P x)) as [HP|HP];
    repeat first [rewrite filter_cons_True by done
                 |rewrite filter_cons_False by done];
    by rewrite IH.
Qed.

(** X9: deletions commute: deleting two ids in one order or the other ends
    in the same state. *)
Theorem deletions_commute :
  forall (st : State) (a b : Value),
    handleConfirmDelete (handleDeleteClick a
      (handleConfirmDelete (handleDeleteClick b st)))
    = handleConfirmDelete (handleDeleteClick b
        (handleConfirmDelete (handleDeleteClick a st))).
Proof.
  intros st a b.
  rewrite (deleteRecord_state b st), (deleteRecord_state a st),
    !deleteRecord_state.
  cbn [tableData editDialogOpen deleteDialogOpen currentRowToEdit
       currentEditedRow].
  f_equal. apply filter_comm.
Qed.

(** X10: whatever the table held, once the effect on [initialData] has run
    it holds exactly [initialData], and no other cell has changed; right
    after mounting that is the delivered [processedData], or no row at all
    when the page was entered without one. *)
Theorem effect_installs_the_delivered_rows :
  (forall (ls : LocationState) (st : State),
     let st' := effect ls st in
     tableData st' = initialData ls /\
     editDialogOpen st' = editDialogOpen st /\
     deleteDialogOpen st' = deleteDialogOpen st /\
     currentRowToEdit st' = currentRowToEdit st /\
     currentEditedRow st' = currentEditedRow st /\
     rowToDeleteId st' = rowToDeleteId st) /\
  (forall processedData : list Row,
     tableData (mount (Some (Some processedData))) = processedData) /\
  tableData (mount None) = [] /\
  tableData (mount (Some None)) = [].
Proof.
  split; [|split; [|done]].
  - intros ls st st'. subst st'. unfold effect.
    destruct (initialData ls) as [|row rows] eqn:Hinit; simpl; [|done].
    destruct (tableData st) as [|row rows] eqn:Htable; simpl; [|done].
    by rewrite Htable.
  - intros processedData. unfold mount, effect. simpl.
    by destruct processedData.
Qed.

(** X11: a successful submission hands its rows over: the navigation that
    [handleSubmit] asks for carries the body's [processed_data], and the
    results page mounted on it shows exactly those rows, or none when the
    body had no [processed_data]. *)
Theorem submitted_rows_reach_the_table :
  forall (nullPropertyError : string -> string) (status : N)
         (statusText : string) (detail : Value)
         (processed_data : option (list Row)) (st : FileUpload.State),
    exists nav : Navigation,
      (handleSubmit_settle nullPropertyError
         (FetchResolved
            {| ok := true; status := status; statusText := statusText;
               json := inr (BodyObject detail processed_data) |}) st).2
      = Some nav /\
      tableData (mount (useLocation nav)) = default [] processed_data.
Proof.
  intros npe status statusText detail processed_data st.
  exists (Navigate "/results" processed_data). split; [done|].
  destruct processed_data as [rows|]; simpl; [|done].
  unfold mount, effect. simpl. by destruct rows.
Qed.

Section ClearAll.

Variable unparse : list Row -> string.
Variable stringify : list Row -> string.

(** X12: "Clear All" does nothing when the confirmation is declined; when
    it is accepted only the table changes: it is empty, there is no column
    left, and both downloads answer with the alert instead of a file. *)
Theorem clear_all_needs_the_confirmation :
  forall st : State,
    handleTableWiseDelete false st = st /\
    let st' := handleTableWiseDelete true st in
    tableData st' = [] /\
    columns st' = [] /\
    (editDialogOpen st', deleteDialogOpen st', currentRowToEdit st',
     currentEditedRow st', rowToDeleteId st')
    = (editDialogOpen st, deleteDialogOpen st, currentRowToEdit st,
       currentEditedRow st, rowToDeleteId st) /\
    handleDownloadCSV unparse st' = (st', [Alert "No data to download."]) /\
    handleDownloadJSON stringify st' = (st', [Alert "No data to download."]).
Proof. intros st. repeat split. Qed.

End ClearAll.

(** X18: the dialog's fields are controlled inputs that give back what
    was typed: after a change event a field shows the text of the event,
    the empty text included, and every other field shows what it showed
    before. *)
Theorem field_shows_what_was_typed :
  forall (st : State) (name value key : string),
    fieldValue (handleFieldChange name value st) key
    = if String.eqb name key then VStr value else fieldValue st key.
Proof.
  intros st name value key. unfold fieldValue, handleFieldChange. simpl.
  unfold spread. rewrite get_set. destruct (String.eqb name key); [|done].
  simpl. by destruct value.
Qed.

(** ** Header labels *)









(** ** Letter case in the extension check *)

(** X14: with the ASCII lower-casing, two files whose final segments differ
    only in letter case are accepted or rejected alike, while the allowed
    list is compared as written: an entry with a capital letter in it never
    matches, so a list of such entries rejects every file. *)
Theorem extension_check_lowers_the_name_only :
  (forall (slot : Slot) (allowed : list string) (f g : File)
          (segf segg : string) (st : FileUpload.State),
     finalSegment (name f) segf ->
     finalSegment (name g) segg ->
     toLowerCase_ascii segf = toLowerCase_ascii segg ->
     slotFile slot
       (handleFileChange toLowerCase_ascii (setter slot) allowed (Some f) st)
     = Some f <->
     slotFile slot
       (handleFileChange toLowerCase_ascii (setter slot) allowed (Some g) st)
     = Some g) /\
  (forall (slot : Slot) (allowed : list string) (f : File)
          (st : FileUpload.State),
     (forall entry, entry ∈ allowed -> hasCapital entry = true) ->
     slotFile slot
       (handleFileChange toLowerCase_ascii (setter slot) allowed (Some f) st)
     = None).
Proof.
  split.
  - intros slot allowed f g segf segg st Hf Hg Heq.
    rewrite (handleFileChange_final _ slot allowed f segf st Hf).
    rewrite (handleFileChange_final _ slot allowed g segg st Hg).
    rewrite Heq.
    destruct (includes allowed (toLowerCase_ascii segg));
      rewrite !slotFile_setter; split; done.
  - intros slot allowed f st Hcaps.
    destruct (finalSegment_total (name f)) as [seg Hseg].
    rewrite (handleFileChange_final _ slot allowed f seg st Hseg).
    destruct (includes allowed (toLowerCase_ascii seg)) eqn:Hin;
      rewrite slotFile_setter; [|done].
    apply includes_elem_of, Hcaps in Hin.
    by rewrite hasCapital_toLowerCase_ascii in Hin.
Qed.

(** * Properties of the application shell *)

Section AppProperties.

Variable stringify : Row -> string.
Variable parse : string -> Try App.Parsed.

(** X15: after a login the upload page is shown and the user is stored;
    provided the stored text is not empty and parses back to the object,
    reloading the page at any location restores the same user.  The mock
    login yields the Gmail address for "google" and the Apple address for
    every other type. *)
Theorem login_survives_a_reload :
  forall (userData : Row) (st : App.State) (at_ : App.Route),
    stringify userData <> "" ->
    parse (stringify userData) = Return (App.Object userData) ->
    let logged := App.handleLoginSuccess stringify userData st in
    logged = {| App.user := App.Object userData;
                App.mockUser := Some (stringify userData);
                App.location := App.Upload |} /\
    App.element logged = App.FileUploadPage /\
    App.restore parse (App.load (App.mockUser logged) at_)
    = Return {| App.user := App.Object userData;
                App.mockUser := Some (stringify userData);
                App.location := at_ |} /\
    (forall type : string,
       get "email" (App.handleMockLogin type)
       = VStr (if String.eqb type "google" then "user@gmail.com"
               else "user@apple.com")).
Proof.
  intros userData st at_ Hne Hparse logged. subst logged.
  split; [done|]. split; [done|]. split; [|done].
  unfold App.restore. simpl.
  apply String.eqb_neq in Hne as ->. simpl. by rewrite Hparse.
Qed.

(** X16: "Logout" in the account menu closes the menu, forgets the user,
    removes the stored item and goes to the login page, where no menu is
    shown; a reload afterwards, at any location, finds no user and shows
    neither the upload page nor the results page. *)
Theorem logout_forgets_the_user :
  forall (bar : App.Navbar) (st : App.State) (at_ : App.Route),
    let out := App.handleLogoutClick App.handleLogout bar st in
    App.open out.1 = false /\
    out.2 = {| App.user := App.Scalar VNull; App.mockUser := None;
               App.location := App.Root |} /\
    App.element out.2 = App.LoginPage /\
    App.showsMenu out.2 = false /\
    App.restore parse (App.load (App.mockUser out.2) at_)
    = Return (App.load None at_) /\
    App.element (App.load None at_) <> App.FileUploadPage /\
    App.element (App.load None at_) <> App.ResultsTablePage.
Proof.
  intros bar st at_ out. subst out. repeat split; by destruct at_.
Qed.

(** X17: a page load whose effect completes shows the upload page or the
    results page only if that is the location and the stored item is a
    non-empty text that parses to a truthy value, which is then the user;
    when the stored text does not parse the effect throws the parser's
    error; without a stored text it leaves the state as it was. *)
Theorem reload_shows_protected_pages_only_for_a_stored_user :
  forall (stored : option string) (at_ : App.Route),
    (forall st' : App.State,
       App.restore parse (App.load stored at_) = Return st' ->
       App.element st' = App.FileUploadPage \/
       App.element st' = App.ResultsTablePage ->
       exists text parsed,
         stored = Some text /\ text <> "" /\
         parse text = Return parsed /\
         App.truthyParsed parsed = true /\
         st' = App.setUser parsed (App.load stored at_) /\
         (at_ = App.Upload \/ at_ = App.Results)) /\
    (forall text message,
       stored = Some text -> text <> "" -> parse text = Throw message ->
       App.restore parse (App.load stored at_) = Throw message) /\
    (stored = None \/ stored = Some "" ->
       App.restore parse (App.load stored at_) = Return (App.load stored at_)).
Proof.
  intros stored at_. split; [|split].
  - intros st' Hrestore Hshown. unfold App.restore in Hrestore. simpl in *.
    destruct stored as [text|].
    + destruct (String.eqb text "") eqn:Htext; simpl in Hrestore.
      * injection Hrestore as <-. by destruct at_, Hshown.
      * destruct (parse text) as [message|parsed] eqn:Hparse;
          simpl in Hrestore; [done|].
        injection Hrestore as <-. exists text, parsed.
        apply String.eqb_neq in Htext.
        unfold App.element in Hshown. simpl in Hshown.
        destruct at_, (App.truthyParsed parsed), Hshown; try done;
          repeat split; auto.
    + injection Hrestore as <-. by destruct at_, Hshown.
  - intros text message -> Hne Hparse. unfold App.restore. simpl.
    apply String.eqb_neq in Hne as ->. simpl. by rewrite Hparse.
  - by intros [->| ->].
Qed.

End AppProperties.

(** * More worked instances *)

Lemma rejected_cp_file_leaves_the_sof_slot :
  let st := setSofFile (Some statement_docx) FileUpload.initial in
  let st' := handleFileChange toLowerCase_ascii (setter Cp) (allowedTypes Cp)
               (Some scan_png) st in
  Cp <> Sof /\
  slotFile Sof st' = Some statement_docx /\ loading st' = false.
Proof.
  intros st st'. assert (Cp <> Sof) as Hne by done. split; [done|].
  apply (selection_leaves_the_other_slots toLowerCase_ascii Cp Sof
           (allowedTypes Cp) (Some scan_png) st Hne).
Defined.

Lemma the_held_statement_was_accepted :
  slotFile Sof
    (state (run toLowerCase_ascii nullPropertyError_v8 mounted
              [InputChange Sof (Some statement_docx)]))
  = Some statement_docx /\
  accepted toLowerCase_ascii Sof statement_docx.
Proof.
  split; [reflexivity|].
  apply (held_files_passed_the_check toLowerCase_ascii nullPropertyError_v8
           [InputChange Sof (Some statement_docx)]).
  reflexivity.
Defined.

Lemma the_sent_statement_was_accepted :
  let req := Fetch "http://localhost:8000/process-documents/" "POST"
               [("sof_file", statement_docx)] in
  let events := [InputChange Sof (Some statement_docx); ClickSubmit] in
  req ∈ pending (run toLowerCase_ascii nullPropertyError_v8 mounted events) /\
  checkedRequest toLowerCase_ascii req.
Proof.
  intros req events.
  assert (req ∈ pending (run toLowerCase_ascii nullPropertyError_v8 mounted
                           events)) as Hin by (by left).
  split; [done|].
  apply (sent_files_passed_the_check toLowerCase_ascii nullPropertyError_v8
           events req Hin).
Defined.

Lemma type_twice_into_the_port :
  let changes := [("port", "Sikka"); ("vessel", "Gamma"); ("port", "Vadinar")] in
  let st' := handleSaveEdit (typeAll changes (handleEditClick row_beta delivered)) in
  row_beta ∈ tableData delivered /\
  NoDup (get "id" <$> tableData delivered) /\
  Forall (fun change => change.1 ∈ columns delivered) changes /\
  exists (before after : list Row) (r' : Row),
    tableData delivered = before ++ row_beta :: after /\
    tableData st' = before ++ r' :: after /\
    get "id" r' = get "id" row_beta /\
    (forall k, k ∉ changes.*1 -> get k r' = get k row_beta) /\
    (forall earlier k v later,
       changes = earlier ++ (k, v) :: later -> k ∉ later.*1 ->
       get k r' = VStr v) /\
    (changes = [] -> r' = row_beta).
Proof.
  intros changes st'.
  assert (row_beta ∈ tableData delivered) as Hrow by by_computation.
  assert (NoDup (get "id" <$> tableData delivered)) as Hids by by_computation.
  assert (Forall (fun change => change.1 ∈ columns delivered) changes) as Hcols.
  { repeat (apply Forall_cons_2; [by_computation|]). apply Forall_nil_2. }
  split; [done|]. split; [done|]. split; [done|].
  apply (save_after_typing_keeps_the_last_text_of_each_field
           delivered row_beta changes Hrow Hids Hcols).
Defined.

Lemma ids_stay_distinct_in_the_delivered_table :
  NoDup (get "id" <$> tableData delivered) /\
  NoDup (get "id" <$> tableData (handleSaveEdit delivered)) /\
  NoDup (get "id" <$>
           tableData (handleConfirmDelete (handleDeleteClick (VNum 1) delivered))) /\
  NoDup (get "id" <$> tableData (handleTableWiseDelete true delivered)).
Proof.
  assert (NoDup (get "id" <$> tableData delivered)) as Hids by by_computation.
  split; [done|].
  destruct mutations_keep_ids_distinct as (_ & _ & Hkeep).
  apply (Hkeep delivered (VNum 1) true Hids).
Defined.

Lemma delete_the_first_delivered_row :
  let st' := handleConfirmDelete (handleDeleteClick (get "id" row_alpha) delivered) in
  row_alpha ∈ tableData delivered /\
  NoDup (get "id" <$> tableData delivered) /\
  exists before after : list Row,
    tableData delivered = before ++ row_alpha :: after /\
    tableData st' = before ++ after /\
    S (length (tableData st')) = length (tableData delivered).
Proof.
  intros st'.
  assert (row_alpha ∈ tableData delivered) as Hrow by by_computation.
  assert (NoDup (get "id" <$> tableData delivered)) as Hids by by_computation.
  split; [done|]. split; [done|].
  apply (delete_removes_exactly_the_row delivered row_alpha Hrow Hids).
Defined.


Lemma upper_case_extension_and_upper_case_list :
  let f := mkFile "a.PDF" "" in
  let g := mkFile "b.pdf" "" in
  (slotFile Sof
     (handleFileChange toLowerCase_ascii (setter Sof) ["pdf"] (Some f)
        FileUpload.initial) = Some f <->
   slotFile Sof
     (handleFileChange toLowerCase_ascii (setter Sof) ["pdf"] (Some g)
        FileUpload.initial) = Some g) /\
  slotFile Sof
    (handleFileChange toLowerCase_ascii (setter Sof) ["PDF"] (Some f)
       FileUpload.initial) = None.
Proof.
  intros f g.
  destruct extension_check_lowers_the_name_only as [Hcase Hcaps].
  split.
  - apply (Hcase Sof ["pdf"] f g "PDF" "pdf" FileUpload.initial).
    + split; [done | right; by exists "a"].
    + split; [done | right; by exists "b"].
    + reflexivity.
  - apply (Hcaps Sof ["PDF"] f FileUpload.initial).
    intros entry Hentry. apply list_elem_of_singleton in Hentry as ->.
    reflexivity.
Defined.

Lemma google_login_then_reload_on_results :
  let userData := App.handleMockLogin "google" in
  let logged := App.handleLoginSuccess sample_stringify userData
                  (App.load None App.Root) in
  sample_stringify userData <> "" /\
  sample_parse (sample_stringify userData) = Return (App.Object userData) /\
  App.element logged = App.FileUploadPage /\
  App.restore sample_parse (App.load (App.mockUser logged) App.Results)
  = Return {| App.user := App.Object userData;
              App.mockUser := Some (sample_stringify userData);
              App.location := App.Results |}.
Proof.
  intros userData logged.
  assert (sample_stringify userData <> "") as Hne by done.
  assert (sample_parse (sample_stringify userData)
          = Return (App.Object userData)) as Hparse by reflexivity.
  split; [done|]. split; [done|].
  destruct (login_survives_a_reload sample_stringify sample_parse userData
              (App.load None App.Root) App.Results Hne Hparse)
    as (_ & Hshown & Hrestored & _).
  split; [exact Hshown | exact Hrestored].
Defined.

Lemma reload_with_a_stored_apple_user :
  let text := sample_stringify (App.handleMockLogin "apple") in
  let st' := App.setUser (App.Object (App.handleMockLogin "apple"))
               (App.load (Some text) App.Upload) in
  App.restore sample_parse (App.load (Some text) App.Upload) = Return st' /\
  App.element st' = App.FileUploadPage /\
  sample_parse text = Return (App.Object (App.handleMockLogin "apple")) /\
  App.restore sample_parse (App.load (Some "{") App.Upload)
  = Throw "Unexpected token".
Proof.
  intros text st'.
  destruct (reload_shows_protected_pages_only_for_a_stored_user sample_parse
              (Some text) App.Upload) as (Hshown & _ & _).
  destruct (reload_shows_protected_pages_only_for_a_stored_user sample_parse
              (Some "{") App.Upload) as (_ & Hthrows & _).
  assert (App.restore sample_parse (App.load (Some text) App.Upload)
          = Return st') as Hrestore by reflexivity.
  destruct (Hshown st' Hrestore (or_introl eq_refl))
    as (text' & parsed & [= <-] & _ & Hparse & _ & _ & _).
  split; [done|]. split; [reflexivity|]. split; [reflexivity|].
  by apply (Hthrows "{" "Unexpected token").
Defined.
